(** * Blue Carbon Credit registry: ledger, proof-of-work and token accounting

    A shallow embedding of [Blue_Carbon_Credit.py]: the classes [Block],
    [Blockchain] and [BlueCarbonToken], with the properties of the ledger
    (linkage, stored hashes, mining) and of the token balances.

    Python values are modelled as follows.
    - [int] is [Z] (unbounded, no wrap-around).
    - [str] is [string]; a character is a code point below 256.
    - a payload ([data]) is a JSON-serialisable value, type [json]
      (floats are left out).
    - the [balances] dict is a [gmap string Z].
    - an object field that the code assigns is a record field that the model
      replaces; a raised exception is a [Raise] completion that leaves the
      state as it was when the exception was raised.
    - [str(datetime.now())] is an input of the operation that reads the
      clock. *)

From Stdlib Require Import ZArith String Ascii List Bool Lia.
From stdpp Require Import gmap strings list fin_maps sorting.
Import ListNotations.

Set Warnings "-register-all".

Local Open Scope string_scope.
Local Open Scope Z_scope.

(** ** Python built-ins used by the program *)

Module Py.

(** [s.startswith(p)] *)
Fixpoint startswith (s p : string) : bool :=
  match p with
  | EmptyString => true
  | String c p' =>
      match s with
      | EmptyString => false
      | String d s' => if Ascii.eqb c d then startswith s' p' else false
      end
  end.

(** [s * n] for a string [s] and an [int] [n] (empty when [n <= 0]) *)
Definition str_mul (s : string) (n : Z) : string :=
  Nat.iter (Z.to_nat n) (String.append s) EmptyString.

(** [str(n)] for a non-negative [int] *)
Definition digit (d : Z) : ascii := ascii_of_N (Z.to_N (48 + d)).

Fixpoint str_nat_aux (fuel : nat) (n : Z) (acc : string) : string :=
  match fuel with
  | O => acc
  | S fuel' =>
      let acc' := String (digit (n mod 10)) acc in
      if n <? 10 then acc' else str_nat_aux fuel' (n / 10) acc'
  end.

(** [str(n)] for an [int] *)
Definition str_int (n : Z) : string :=
  let digits m := str_nat_aux (S (Z.to_nat (Z.log2 m))) m EmptyString in
  if n <? 0 then String "-" (digits (- n)) else digits n.

End Py.

(** ** [hashlib.sha256]: SHA-256 as in FIPS 180-4, on 32-bit words held in [Z] *)

Module Hashlib.

Definition w32 (x : Z) : Z := Z.land x 4294967295.

Definition add32 (x y : Z) : Z := w32 (x + y).

Definition rotr (n x : Z) : Z :=
  Z.lor (Z.shiftr x n) (w32 (Z.shiftl x (32 - n))).

Definition Ch (x y z : Z) : Z :=
  Z.lxor (Z.land x y) (Z.land (Z.lxor x 4294967295) z).

Definition Maj (x y z : Z) : Z :=
  Z.lxor (Z.lxor (Z.land x y) (Z.land x z)) (Z.land y z).

Definition Sigma0 (x : Z) : Z :=
  Z.lxor (Z.lxor (rotr 2 x) (rotr 13 x)) (rotr 22 x).

Definition Sigma1 (x : Z) : Z :=
  Z.lxor (Z.lxor (rotr 6 x) (rotr 11 x)) (rotr 25 x).

Definition sigma0 (x : Z) : Z :=
  Z.lxor (Z.lxor (rotr 7 x) (rotr 18 x)) (Z.shiftr x 3).

Definition sigma1 (x : Z) : Z :=
  Z.lxor (Z.lxor (rotr 17 x) (rotr 19 x)) (Z.shiftr x 10).

(** The constants are the fractional parts of the square and cube roots
    of the first primes; they are computed rather than tabulated. *)

Definition is_prime (p : Z) : bool :=
  forallb (fun d => negb (p mod Z.of_nat d =? 0)) (seq 2 (Z.to_nat p - 2)).

Definition first_primes (n : nat) : list Z :=
  firstn n (filter is_prime (map Z.of_nat (seq 2 400))).

Fixpoint icbrt_aux (bits : nat) (n r : Z) : Z :=
  match bits with
  | O => r
  | S k =>
      let c := Z.lor r (Z.shiftl 1 (Z.of_nat k)) in
      icbrt_aux k n (if c * c * c <=? n then c else r)
  end.

(** Integer cube root, for arguments below [2^120] *)
Definition icbrt (n : Z) : Z := icbrt_aux 40 n 0.

Definition H0 : list Z :=
  Eval vm_compute in
    map (fun p => w32 (Z.sqrt (p * 2 ^ 64))) (first_primes 8).

Definition K : list Z :=
  Eval vm_compute in
    map (fun p => w32 (icbrt (p * 2 ^ 96))) (first_primes 64).

(** Padding: a [1] bit, zeros up to 56 modulo 64 bytes, and the length in
    bits as a 64-bit big-endian number *)
Fixpoint be_bytes (n : nat) (x : Z) : list Z :=
  match n with
  | O => []
  | S k => Z.land (Z.shiftr x (8 * Z.of_nat k)) 255 :: be_bytes k x
  end.

Definition pad (msg : list Z) : list Z :=
  let len := Z.of_nat (length msg) in
  let zeros := Z.to_nat ((55 - len) mod 64) in
  (msg ++ 128 :: repeat 0 zeros ++ be_bytes 8 (8 * len))%list.

Fixpoint words (fuel : nat) (bytes : list Z) : list Z :=
  match fuel, bytes with
  | S fuel', a :: b :: c :: d :: rest =>
      (Z.shiftl a 24 + Z.shiftl b 16 + Z.shiftl c 8 + d) :: words fuel' rest
  | _, _ => []
  end.

(** The message schedule, most recent word first *)
Fixpoint schedule (n : nat) (rw : list Z) : list Z :=
  match n with
  | O => rw
  | S k =>
      let w := add32 (add32 (sigma1 (nth 1 rw 0)) (nth 6 rw 0))
                     (add32 (sigma0 (nth 14 rw 0)) (nth 15 rw 0)) in
      schedule k (w :: rw)
  end.

Record regs := Regs { ra : Z; rb : Z; rc : Z; rd : Z;
                      re : Z; rf : Z; rg : Z; rh : Z }.

Definition round (s : regs) (kw : Z * Z) : regs :=
  let '(k, w) := kw in
  let t1 := add32 (add32 (add32 (rh s) (Sigma1 (re s)))
                         (add32 (Ch (re s) (rf s) (rg s)) k)) w in
  let t2 := add32 (Sigma0 (ra s)) (Maj (ra s) (rb s) (rc s)) in
  Regs (add32 t1 t2) (ra s) (rb s) (rc s) (add32 (rd s) t1) (re s) (rf s) (rg s).

Definition regs_of (l : list Z) : regs :=
  Regs (nth 0 l 0) (nth 1 l 0) (nth 2 l 0) (nth 3 l 0)
       (nth 4 l 0) (nth 5 l 0) (nth 6 l 0) (nth 7 l 0).

Definition list_of (s : regs) : list Z :=
  [ra s; rb s; rc s; rd s; re s; rf s; rg s; rh s].

Definition compress (h : list Z) (block : list Z) : list Z :=
  let w := rev (schedule 48 (rev block)) in
  let s := fold_left round (combine K w) (regs_of h) in
  map (fun p => add32 (fst p) (snd p)) (combine h (list_of s)).

Fixpoint blocks (fuel : nat) (h : list Z) (ws : list Z) : list Z :=
  match fuel, ws with
  | S fuel', _ :: _ => blocks fuel' (compress h (firstn 16 ws)) (skipn 16 ws)
  | _, _ => h
  end.

Definition sha256 (msg : list Z) : list Z :=
  let bytes := pad msg in
  let ws := words (length bytes) bytes in
  blocks (length ws) H0 ws.

Definition hexchar (d : Z) : ascii :=
  ascii_of_N (Z.to_N (if d <? 10 then 48 + d else 87 + d)).

Fixpoint hex (n : nat) (x : Z) : string :=
  match n with
  | O => EmptyString
  | S k => String (hexchar (Z.land (Z.shiftr x (4 * Z.of_nat k)) 15)) (hex k x)
  end.

(** [s.encode()] for a string of ASCII characters *)
Definition encode (s : string) : list Z :=
  map (fun c => Z.of_N (N_of_ascii c)) (list_ascii_of_string s).

(** [hashlib.sha256(s.encode()).hexdigest()] *)
Definition sha256_hexdigest (s : string) : string :=
  fold_right (fun w acc => String.append (hex 8 w) acc) EmptyString
             (sha256 (encode s)).

End Hashlib.

(** ** [json.dumps(obj, sort_keys=True)] *)

(** The values that [json.dumps] serialises: [None], [bool], [int], [str],
    [list] and [dict] with [str] keys (a [dict] holds each key once). *)
Inductive json : Type :=
| JNull
| JBool (b : bool)
| JInt (n : Z)
| JStr (s : string)
| JList (l : list json)
| JDict (d : list (string * json)).

Module Json.

Definition join (sep : string) (l : list string) : string :=
  match l with
  | [] => EmptyString
  | x :: xs => fold_left (fun acc y => String.append acc (String.append sep y)) xs x
  end.

(** A character of a [str] as [ensure_ascii] writes it: everything outside
    [' '..'~'], the quote and the backslash are escaped. *)
Definition escape_char (c : ascii) : string :=
  let n := Z.of_N (N_of_ascii c) in
  if n =? 34 then String "\" (String c EmptyString)
  else if n =? 92 then "\\"
  else if n =? 10 then "\n"
  else if n =? 13 then "\r"
  else if n =? 9 then "\t"
  else if n =? 8 then "\b"
  else if n =? 12 then "\f"
  else if (n <? 32) || (126 <? n) then String.append "\u" (Hashlib.hex 4 n)
  else String c EmptyString.

Definition quote : ascii := ascii_of_N 34.

Definition encode_str (s : string) : string :=
  String quote
    (String.append (String.concat EmptyString (map escape_char (list_ascii_of_string s)))
                   (String quote EmptyString)).

(** [sorted(d.items())]: insertion of an item before the first greater key *)
Fixpoint insert_item (kv : string * string) (l : list (string * string))
  : list (string * string) :=
  match l with
  | [] => [kv]
  | x :: xs =>
      if String.leb (fst x) (fst kv) then x :: insert_item kv xs
      else kv :: x :: xs
  end.

Definition sort_items (l : list (string * string)) : list (string * string) :=
  fold_left (fun acc kv => insert_item kv acc) l [].

Fixpoint dumps (obj : json) : string :=
  match obj with
  | JNull => "null"
  | JBool true => "true"
  | JBool false => "false"
  | JInt n => Py.str_int n
  | JStr s => encode_str s
  | JList l =>
      String.append "[" (String.append (join ", " (map dumps l)) "]")
  | JDict d =>
      let items := map (fun kv => match kv with (k, v) => (k, dumps v) end) d in
      let field kv := String.append (encode_str (fst kv)) (String.append ": " (snd kv)) in
      String.append "{" (String.append (join ", " (map field (sort_items items))) "}")
  end.

End Json.

(** ** Statements with effects

    A method runs on the state of its object. It returns a value, raises a
    Python exception, or is cut off when a loop has used up its fuel; the
    state is threaded through in each case. *)

Inductive exn : Type :=
| IndexError
| KeyError (key : string).

Inductive completion (A : Type) : Type :=
| Return (a : A)
| Raise (e : exn)
| OutOfFuel.

Arguments Return {A} a.
Arguments Raise {A} e.
Arguments OutOfFuel {A}.

Definition M (S A : Type) : Type := S -> completion A * S.

Definition ret {S A} (a : A) : M S A := fun s => (Return a, s).

Definition bind {S A B} (m : M S A) (k : A -> M S B) : M S B :=
  fun s =>
    match m s with
    | (Return a, s') => k a s'
    | (Raise e, s') => (Raise e, s')
    | (OutOfFuel, s') => (OutOfFuel, s')
    end.

Definition raise {S A} (e : exn) : M S A := fun s => (Raise e, s).
Definition out_of_fuel {S A} : M S A := fun s => (OutOfFuel, s).
Definition get {S} : M S S := fun s => (Return s, s).
Definition put {S} (s : S) : M S unit := fun _ => (Return tt, s).

(** A method call on another object [obj]: the callee runs on [obj], the
    caller's own state is untouched, and the caller gets the result together
    with the object as the callee left it. *)
Definition call {S O A} (obj : O) (m : M O A) : M S (A * O) :=
  fun s =>
    match m obj with
    | (Return a, obj') => (Return (a, obj'), s)
    | (Raise e, _) => (Raise e, s)
    | (OutOfFuel, _) => (OutOfFuel, s)
    end.

Notation "'let*' x ':=' c 'in' k" := (bind c (fun x => k))
  (at level 10, x pattern, c at level 100, k at level 200).

(** ** class Block *)

Record Block : Type := mkBlock {
  index : Z;
  timestamp : string;
  data : json;
  previous_hash : string;
  nonce : Z;
  hash : string
}.

Definition set_nonce (n : Z) (b : Block) : Block :=
  mkBlock (index b) (timestamp b) (data b) (previous_hash b) n (hash b).

Definition set_hash (h : string) (b : Block) : Block :=
  mkBlock (index b) (timestamp b) (data b) (previous_hash b) (nonce b) h.

(** ** class Blockchain *)

Record Blockchain : Type := mkBlockchain { chain : list Block }.

Section Ledger.

(** [json.dumps(obj, sort_keys=True)] and
    [hashlib.sha256(s.encode()).hexdigest()]: the ledger uses the two
    library functions as black boxes. [Json.dumps] and
    [Hashlib.sha256_hexdigest] are the ones the program runs with. *)
Variable json_dumps : json -> string.
Variable sha256_hexdigest : string -> string.

(** [Block.compute_hash] *)
Definition compute_hash (self : Block) : string :=
  let block_string :=
    json_dumps (JDict [("index", JInt (index self));
                       ("timestamp", JStr (timestamp self));
                       ("data", data self);
                       ("previous_hash", JStr (previous_hash self));
                       ("nonce", JInt (nonce self))]) in
  sha256_hexdigest block_string.

(** [Block.__init__]: the fields, then [self.hash = self.compute_hash()] *)
Definition Block_init (index : Z) (timestamp : string) (data : json)
           (previous_hash : string) (nonce : Z) : Block :=
  let self := mkBlock index timestamp data previous_hash nonce EmptyString in
  set_hash (compute_hash self) self.

(** [Blockchain.difficulty] *)
Definition difficulty : Z := 2.

(** [self.chain.append(block)] *)
Definition chain_append (block : Block) : M Blockchain unit :=
  let* self := get in
  put (mkBlockchain (chain self ++ [block])).

(** [Blockchain.create_genesis_block]; [now] is [str(datetime.now())] *)
Definition create_genesis_block (now : string) : M Blockchain unit :=
  let genesis_block := Block_init 0 now (JStr "Genesis Block") "0" 0 in
  chain_append genesis_block.

(** [Blockchain.__init__] *)
Definition Blockchain_init (now : string) : Blockchain :=
  snd (create_genesis_block now (mkBlockchain [])).

(** [Blockchain.last_block]: [self.chain[-1]], an [IndexError] on an empty
    list *)
Definition last_block : M Blockchain Block :=
  let* self := get in
  match last (chain self) with
  | Some b => ret b
  | None => raise IndexError
  end.

(** The loop of [proof_of_work]; one unit of fuel per iteration *)
Fixpoint proof_of_work_loop (fuel : nat) (computed_hash : string)
  : M Block string :=
  if negb (Py.startswith computed_hash (Py.str_mul "0" difficulty)) then
    match fuel with
    | O => out_of_fuel
    | S fuel' =>
        let* block := get in
        let* _ := put (set_nonce (nonce block + 1) block) in
        let* block := get in
        proof_of_work_loop fuel' (compute_hash block)
    end
  else ret computed_hash.

(** [Blockchain.proof_of_work], run on the block it mutates *)
Definition proof_of_work (fuel : nat) : M Block string :=
  let* block := get in
  let* _ := put (set_nonce 0 block) in
  let* block := get in
  proof_of_work_loop fuel (compute_hash block).

(** [Blockchain.add_block]; [now] is [str(datetime.now())] *)
Definition add_block (fuel : nat) (now : string) (data : json)
  : M Blockchain Block :=
  let* last1 := last_block in
  let* last2 := last_block in
  let new_block := Block_init (index last1 + 1) now data (hash last2) 0 in
  let* (computed_hash, new_block) := call new_block (proof_of_work fuel) in
  let new_block := set_hash computed_hash new_block in
  let* _ := chain_append new_block in
  ret new_block.

(** The digest of the fields of [block] when its nonce is [n] *)
Definition hash_at (block : Block) (n : Z) : string :=
  compute_hash (set_nonce n block).

(** [h.startswith('0' * Blockchain.difficulty)] *)
Definition meets_difficulty (h : string) : bool :=
  Py.startswith h (Py.str_mul "0" difficulty).

(** The ledgers that the program can hold: a constructed [Blockchain],
    then any number of [add_block] calls that return. *)
Inductive reachable : Blockchain -> Prop :=
| reachable_init (now : string) : reachable (Blockchain_init now)
| reachable_add_block (bc bc' : Blockchain) (fuel : nat) (now : string)
                      (data : json) (new_block : Block) :
    reachable bc ->
    add_block fuel now data bc = (Return new_block, bc') ->
    reachable bc'.

(** A run of [add_block] calls, one for each reading of the clock and
    payload; it stops at the first call that does not return. *)
Fixpoint add_blocks (fuel : nat) (inputs : list (string * json))
  : M Blockchain (list Block) :=
  match inputs with
  | [] => ret []
  | (now, data) :: rest =>
      let* new_block := add_block fuel now data in
      let* new_blocks := add_blocks fuel rest in
      ret (new_block :: new_blocks)
  end.

End Ledger.

(** The ledger as the program runs it *)
Abbreviation run_compute_hash := (compute_hash Json.dumps Hashlib.sha256_hexdigest).
Abbreviation run_hash_at := (hash_at Json.dumps Hashlib.sha256_hexdigest).
Abbreviation run_Blockchain_init := (Blockchain_init Json.dumps Hashlib.sha256_hexdigest).
Abbreviation run_proof_of_work := (proof_of_work Json.dumps Hashlib.sha256_hexdigest).
Abbreviation run_add_block := (add_block Json.dumps Hashlib.sha256_hexdigest).
Abbreviation run_reachable := (reachable Json.dumps Hashlib.sha256_hexdigest).

(** ** class BlueCarbonToken *)

Record BlueCarbonToken : Type := mkToken {
  name : string;
  symbol : string;
  balances : gmap string Z;
  total_supply : Z
}.

Definition set_balances (d : gmap string Z) (t : BlueCarbonToken) : BlueCarbonToken :=
  mkToken (name t) (symbol t) d (total_supply t).

Definition set_total_supply (n : Z) (t : BlueCarbonToken) : BlueCarbonToken :=
  mkToken (name t) (symbol t) (balances t) n.

(** [d.get(key, default)] *)
Definition dict_get (d : gmap string Z) (key : string) (default : Z) : Z :=
  match d !! key with
  | Some v => v
  | None => default
  end.

(** [self.balances[key]], a [KeyError] when the key is missing *)
Definition balances_getitem (key : string) : M BlueCarbonToken Z :=
  let* self := get in
  match balances self !! key with
  | Some v => ret v
  | None => raise (KeyError key)
  end.

(** [self.balances[key] = value] *)
Definition balances_setitem (key : string) (value : Z) : M BlueCarbonToken unit :=
  let* self := get in
  put (set_balances (<[key := value]> (balances self)) self).

(** [sum(d.values())] *)
Definition sum_values (d : gmap string Z) : Z :=
  map_fold (fun _ v acc => acc + v) 0 d.

(** [BlueCarbonToken.__init__] *)
Definition BlueCarbonToken_init (name symbol : string) : BlueCarbonToken :=
  mkToken name symbol ∅ 0.

(** [BlueCarbonToken.issue] *)
Definition issue (user : string) (amount : Z) : M BlueCarbonToken unit :=
  let* self := get in
  let* _ := balances_setitem user (dict_get (balances self) user 0 + amount) in
  let* self := get in
  put (set_total_supply (total_supply self + amount) self).

(** [BlueCarbonToken.transfer] *)
Definition transfer (sender receiver : string) (amount : Z)
  : M BlueCarbonToken bool :=
  let* self := get in
  if dict_get (balances self) sender 0 >=? amount then
    let* old := balances_getitem sender in
    let* _ := balances_setitem sender (old - amount) in
    let* self := get in
    let* _ := balances_setitem receiver (dict_get (balances self) receiver 0 + amount) in
    ret true
  else ret false.

(** A call of one of the two methods, and the state after a sequence of
    calls. A call that raises leaves the state as it was at the raise, and
    the caller goes on from there. *)
Inductive token_op : Type :=
| Issue (user : string) (amount : Z)
| Transfer (sender receiver : string) (amount : Z).

Definition exec_op (o : token_op) (t : BlueCarbonToken) : BlueCarbonToken :=
  match o with
  | Issue user amount => snd (issue user amount t)
  | Transfer sender receiver amount => snd (transfer sender receiver amount t)
  end.

Definition exec_ops (ops : list token_op) (t : BlueCarbonToken) : BlueCarbonToken :=
  fold_left (fun t o => exec_op o t) ops t.

(** The two invariants of a token ledger *)
Definition supply_matches (t : BlueCarbonToken) : Prop :=
  total_supply t = sum_values (balances t).

Definition balances_nonneg (t : BlueCarbonToken) : Prop :=
  map_Forall (fun _ balance => 0 <= balance) (balances t).

(** Every amount of the sequence is non-negative, and the same for the
    [issue] calls alone. *)
Definition amounts_nonneg (ops : list token_op) : bool :=
  forallb (fun o => match o with
                    | Issue _ amount => 0 <=? amount
                    | Transfer _ _ amount => 0 <=? amount
                    end) ops.

Definition issued_amounts_nonneg (ops : list token_op) : bool :=
  forallb (fun o => match o with
                    | Issue _ amount => 0 <=? amount
                    | Transfer _ _ _ => true
                    end) ops.

(** The amounts that the [issue] calls of a sequence hand out, in all and to
    one user, and whether some [transfer] call of the sequence names a
    user. *)
Fixpoint total_issued (ops : list token_op) : Z :=
  match ops with
  | [] => 0
  | Issue _ amount :: rest => amount + total_issued rest
  | Transfer _ _ _ :: rest => total_issued rest
  end.

Fixpoint issued_to (user : string) (ops : list token_op) : Z :=
  match ops with
  | [] => 0
  | Issue u amount :: rest =>
      (if String.eqb u user then amount else 0) + issued_to user rest
  | Transfer _ _ _ :: rest => issued_to user rest
  end.

Fixpoint in_transfers (user : string) (ops : list token_op) : bool :=
  match ops with
  | [] => false
  | Issue _ _ :: rest => in_transfers user rest
  | Transfer sender receiver _ :: rest =>
      String.eqb sender user || String.eqb receiver user || in_transfers user rest
  end.

(** ** The script: ledger and tokens together *)

(** The two objects of the script, [carbon_chain] and [token_system] *)
Record Registry : Type := mkRegistry {
  carbon_chain : Blockchain;
  token_system : BlueCarbonToken
}.

(** A method call on [carbon_chain], and one on [token_system] *)
Definition on_carbon_chain {A} (m : M Blockchain A) : M Registry A :=
  fun r =>
    let (c, bc) := m (carbon_chain r) in (c, mkRegistry bc (token_system r)).

Definition on_token_system {A} (m : M BlueCarbonToken A) : M Registry A :=
  fun r =>
    let (c, t) := m (token_system r) in (c, mkRegistry (carbon_chain r) t).

(** The value that a dict holds under [key] *)
Definition dict_lookup (entry : list (string * json)) (key : string) : option json :=
  match find (fun kv => String.eqb (fst kv) key) entry with
  | Some kv => Some (snd kv)
  | None => None
  end.

(** [entry[key]], a [KeyError] when the key is missing *)
Definition entry_getitem {S} (entry : list (string * json)) (key : string)
  : M S json :=
  match dict_lookup entry key with
  | Some v => ret v
  | None => raise (KeyError key)
  end.

Section Ingestion.

Variable json_dumps : json -> string.
Variable sha256_hexdigest : string -> string.

(** The body of the loop over [sample_data], up to the call of [issue]:
    [block = carbon_chain.add_block(entry)], then the two arguments,
    [entry['submitted_by']] and [entry['CO2_absorbed_tonnes']]. The entry is
    a dict. *)
Definition ingest_arguments (fuel : nat) (now : string)
           (entry : list (string * json)) : M Registry (Block * json * json) :=
  let* block :=
    on_carbon_chain (add_block json_dumps sha256_hexdigest fuel now (JDict entry)) in
  let* user := entry_getitem entry "submitted_by" in
  let* amount := entry_getitem entry "CO2_absorbed_tonnes" in
  ret (block, user, amount).

(** The body of the loop. [issue] takes a [str] and an [int], as in class
    [BlueCarbonToken] above; an entry that holds values of other types under
    the two keys has no image in this model ([None]). The [print] is left
    out. *)
Definition ingest (fuel : nat) (now : string) (entry : list (string * json))
           (r : Registry) : option (completion Block * Registry) :=
  match ingest_arguments fuel now entry r with
  | (Return (block, JStr user, JInt amount), r') =>
      Some ((let* _ := on_token_system (issue user amount) in ret block) r')
  | (Return _, _) => None
  | (Raise e, r') => Some (Raise e, r')
  | (OutOfFuel, r') => Some (OutOfFuel, r')
  end.

(** The loop: one turn for each entry and reading of the clock; an exception
    ends it. *)
Fixpoint ingest_all (fuel : nat) (inputs : list (string * list (string * json)))
         (r : Registry) : option (completion (list Block) * Registry) :=
  match inputs with
  | [] => Some (Return [], r)
  | (now, entry) :: rest =>
      match ingest fuel now entry r with
      | Some (Return block, r') =>
          match ingest_all fuel rest r' with
          | Some (Return blocks, r'') => Some (Return (block :: blocks), r'')
          | other => other
          end
      | Some (Raise e, r') => Some (Raise e, r')
      | Some (OutOfFuel, r') => Some (OutOfFuel, r')
      | None => None
      end
  end.

End Ingestion.

(** The script as the program runs it *)
Abbreviation run_add_blocks := (add_blocks Json.dumps Hashlib.sha256_hexdigest).
Abbreviation run_ingest := (ingest Json.dumps Hashlib.sha256_hexdigest).
Abbreviation run_ingest_all := (ingest_all Json.dumps Hashlib.sha256_hexdigest).

(** The user and the amount that an entry submits, when it holds a [str]
    and an [int] under the two keys *)
Definition submission (entry : list (string * json)) : option (string * Z) :=
  match dict_lookup entry "submitted_by", dict_lookup entry "CO2_absorbed_tonnes" with
  | Some (JStr user), Some (JInt amount) => Some (user, amount)
  | _, _ => None
  end.

Definition issue_of (s : string * Z) : token_op := Issue (fst s) (snd s).

(** The order in which [sort_keys] puts two items: by their keys *)
Definition key_le (x y : string * string) : Prop :=
  String.leb (fst x) (fst y) = true.

(** ** The dashboard *)

(** [run_dashboard]: [projects = [block.data for block in
    carbon_chain.chain[1:]]] *)
Definition projects (carbon_chain : Blockchain) : list json :=
  map data (drop 1 (chain carbon_chain)).

(** ** The sample run of the program

    The two sample projects, and a ledger that the program builds from them
    when the clock reads as below. *)

Definition sample_data : list json :=
  [JDict [("project_name", JStr "Mangrove Restoration"); ("location", JStr "Goa");
          ("area_ha", JInt 5); ("species", JStr "Rhizophora");
          ("CO2_absorbed_tonnes", JInt 50); ("submitted_by", JStr "NGO_1")];
   JDict [("project_name", JStr "Seagrass Planting"); ("location", JStr "Kerala");
          ("area_ha", JInt 3); ("species", JStr "Halodule");
          ("CO2_absorbed_tonnes", JInt 30); ("submitted_by", JStr "Community_1")]].

Definition sample_genesis : Block :=
  mkBlock 0 "2025-01-01 12:00:00.000000" (JStr "Genesis Block") "0" 0
          "9ecb72b461d8a69052a62d756d97be3cc9f34d7a1eedc3ed59d2f478dfaa6592".

Definition sample_block1 : Block :=
  mkBlock 1 "2025-01-01 12:00:01.000013" (nth 0 sample_data JNull)
          "9ecb72b461d8a69052a62d756d97be3cc9f34d7a1eedc3ed59d2f478dfaa6592" 3
          "0054d32c0a1bd8d378df9182c5e6c961ef8756321ed2b458f8099094dbbd0830".

Definition sample_block2 : Block :=
  mkBlock 2 "2025-01-01 12:00:02.000022" (nth 1 sample_data JNull)
          "0054d32c0a1bd8d378df9182c5e6c961ef8756321ed2b458f8099094dbbd0830" 3
          "003ac5be28ed69b13be5011e79739bd99cb062562cb43a28126fb7a86a7d0d7c".

Definition sample_chain : Blockchain :=
  mkBlockchain [sample_genesis; sample_block1; sample_block2].

(** The block that [add_block] builds for the first sample project *)
Definition sample_candidate : Block :=
  Block_init Json.dumps Hashlib.sha256_hexdigest
             (index sample_genesis + 1) "2025-01-01 12:00:01.000013"
             (nth 0 sample_data JNull) (hash sample_genesis) 0.

Definition sample_tokens : BlueCarbonToken :=
  exec_ops [Issue "NGO_1" 50; Issue "NGO_1" 30; Issue "Community_1" 30]
           (BlueCarbonToken_init "BlueCarbonToken" "BCT").

(** The inputs of the sample run: the readings of the clock with the
    payloads, and with the entries as dicts. *)
Definition sample_inputs : list (string * json) :=
  [("2025-01-01 12:00:01.000013", nth 0 sample_data JNull);
   ("2025-01-01 12:00:02.000022", nth 1 sample_data JNull)].

Definition sample_entry (i : nat) : list (string * json) :=
  match nth i sample_data JNull with
  | JDict d => d
  | _ => []
  end.

Definition sample_entries : list (string * list (string * json)) :=
  [("2025-01-01 12:00:01.000013", sample_entry 0);
   ("2025-01-01 12:00:02.000022", sample_entry 1)].

(** The script after its first two statements:
    [token_system = BlueCarbonToken()] and [carbon_chain = Blockchain()] *)
Definition sample_registry : Registry :=
  mkRegistry (mkBlockchain [sample_genesis])
             (BlueCarbonToken_init "BlueCarbonToken" "BCT").

(** The first sample entry without its [submitted_by], and the block that
    [add_block] mines for it *)
Definition sample_incomplete_entry : list (string * json) :=
  [("project_name", JStr "Mangrove Restoration"); ("location", JStr "Goa");
   ("area_ha", JInt 5); ("species", JStr "Rhizophora");
   ("CO2_absorbed_tonnes", JInt 50)].

Definition sample_incomplete_block : Block :=
  mkBlock 1 "2025-01-01 12:00:01.000006" (JDict sample_incomplete_entry)
          "9ecb72b461d8a69052a62d756d97be3cc9f34d7a1eedc3ed59d2f478dfaa6592" 1
          "001dc48388bc0b032f34113bf3f16e4bcf8b0927e40543b7e812b163a42a785a".

(** * Properties of the ledger *)

Section LedgerProperties.

Variable json_dumps : json -> string.
Variable sha256_hexdigest : string -> string.

Local Abbreviation compute_hash := (compute_hash json_dumps sha256_hexdigest).
Local Abbreviation hash_at := (hash_at json_dumps sha256_hexdigest).
Local Abbreviation Block_init := (Block_init json_dumps sha256_hexdigest).
Local Abbreviation Blockchain_init := (Blockchain_init json_dumps sha256_hexdigest).
Local Abbreviation proof_of_work_loop := (proof_of_work_loop json_dumps sha256_hexdigest).
Local Abbreviation proof_of_work := (proof_of_work json_dumps sha256_hexdigest).
Local Abbreviation add_block := (add_block json_dumps sha256_hexdigest).
Local Abbreviation reachable := (reachable json_dumps sha256_hexdigest).

Lemma set_nonce_same (b : Block) : set_nonce (nonce b) b = b.
Proof. now destruct b. Qed.

Lemma set_nonce_twice (n m : Z) (b : Block) :
  set_nonce n (set_nonce m b) = set_nonce n b.
Proof. reflexivity. Qed.

Lemma hash_at_nonce (b : Block) : hash_at b (nonce b) = compute_hash b.
Proof. unfold hash_at. now rewrite set_nonce_same. Qed.

Lemma compute_hash_set_hash (h : string) (b : Block) :
  compute_hash (set_hash h b) = compute_hash b.
Proof. reflexivity. Qed.

Lemma hash_at_set_nonce (n m : Z) (b : Block) :
  hash_at (set_nonce m b) n = hash_at b n.
Proof. reflexivity. Qed.

(** One turn of the loop, as an equation *)
Lemma proof_of_work_loop_eq (fuel : nat) (h : string) (block : Block) :
  proof_of_work_loop fuel h block =
    if meets_difficulty h then (Return h, block)
    else match fuel with
         | O => (OutOfFuel, block)
         | S fuel' =>
             let block' := set_nonce (nonce block + 1) block in
             proof_of_work_loop fuel' (compute_hash block') block'
         end.
Proof.
  unfold meets_difficulty.
  destruct fuel; simpl; destruct (Py.startswith h _); reflexivity.
Qed.

(** The loop stops at the first nonce at or after the current one whose
    digest meets the difficulty, when the fuel reaches that far. *)
Lemma proof_of_work_loop_finds (d : nat) :
  forall (fuel : nat) (block : Block),
    (d <= fuel)%nat ->
    (forall j, (j < d)%nat ->
               meets_difficulty (hash_at block (nonce block + Z.of_nat j)) = false) ->
    meets_difficulty (hash_at block (nonce block + Z.of_nat d)) = true ->
    proof_of_work_loop fuel (compute_hash block) block =
      (Return (hash_at block (nonce block + Z.of_nat d)),
       set_nonce (nonce block + Z.of_nat d) block).
Proof.
  induction d as [|d IH]; intros fuel block Hfuel Hbefore Hat;
    rewrite proof_of_work_loop_eq.
  - replace (nonce block + Z.of_nat 0) with (nonce block) in * by lia.
    rewrite hash_at_nonce in Hat. rewrite Hat.
    now rewrite hash_at_nonce, set_nonce_same.
  - assert (H0 : meets_difficulty (compute_hash block) = false).
    { pose proof (Hbefore 0%nat ltac:(lia)) as H0.
      replace (nonce block + Z.of_nat 0) with (nonce block) in H0 by lia.
      now rewrite hash_at_nonce in H0. }
    rewrite H0. destruct fuel as [|fuel]; [lia|]. cbv zeta.
    rewrite (IH fuel (set_nonce (nonce block + 1) block)).
    + rewrite hash_at_set_nonce, set_nonce_twice. simpl nonce.
      now replace (nonce block + 1 + Z.of_nat d)
        with (nonce block + Z.of_nat (S d)) by lia.
    + lia.
    + intros j Hj. rewrite hash_at_set_nonce. simpl nonce.
      replace (nonce block + 1 + Z.of_nat j)
        with (nonce block + Z.of_nat (S j)) by lia.
      apply Hbefore. lia.
    + rewrite hash_at_set_nonce. simpl nonce.
      now replace (nonce block + 1 + Z.of_nat d)
        with (nonce block + Z.of_nat (S d)) by lia.
Qed.

(** The loop is still running after [fuel] turns when none of the nonces it
    has tried meets the difficulty. *)
Lemma proof_of_work_loop_out_of_fuel (fuel : nat) :
  forall (block : Block),
    (forall j, (j <= fuel)%nat ->
               meets_difficulty (hash_at block (nonce block + Z.of_nat j)) = false) ->
    proof_of_work_loop fuel (compute_hash block) block =
      (OutOfFuel, set_nonce (nonce block + Z.of_nat fuel) block).
Proof.
  induction fuel as [|fuel IH]; intros block Hnone;
    rewrite proof_of_work_loop_eq;
    pose proof (Hnone 0%nat ltac:(lia)) as H0;
    replace (nonce block + Z.of_nat 0) with (nonce block) in H0 by lia;
    rewrite hash_at_nonce in H0; rewrite H0.
  - replace (nonce block + Z.of_nat 0) with (nonce block) by lia.
    now rewrite set_nonce_same.
  - cbv zeta. rewrite IH.
    + rewrite set_nonce_twice. simpl nonce.
      now replace (nonce block + 1 + Z.of_nat fuel)
        with (nonce block + Z.of_nat (S fuel)) by lia.
    + intros j Hj. rewrite hash_at_set_nonce. simpl nonce.
      replace (nonce block + 1 + Z.of_nat j)
        with (nonce block + Z.of_nat (S j)) by lia.
      apply Hnone. lia.
Qed.

(** What a returning loop hands back: the digest of the block as the loop
    left it, which meets the difficulty; only the nonce has moved. *)
Lemma proof_of_work_loop_returns (fuel : nat) :
  forall (block block' : Block) (h : string),
    proof_of_work_loop fuel (compute_hash block) block = (Return h, block') ->
    h = compute_hash block' /\ meets_difficulty h = true /\
    block' = set_nonce (nonce block') block /\ nonce block <= nonce block'.
Proof.
  induction fuel as [|fuel IH]; intros block block' h;
    rewrite proof_of_work_loop_eq;
    destruct (meets_difficulty (compute_hash block)) eqn:Hm; try discriminate.
  - intros [= <- <-]. rewrite set_nonce_same. repeat split; auto. lia.
  - intros [= <- <-]. rewrite set_nonce_same. repeat split; auto. lia.
  - cbv zeta. intros Hrun. apply IH in Hrun as (Hh & Hmeets & Hb & Hle).
    simpl nonce in Hle. rewrite set_nonce_twice in Hb.
    repeat split; auto. lia.
Qed.

(** Among the nonces from 0 to [n], when the one at [n] meets the
    difficulty, there is a least one that does. *)
Lemma least_nonce (P : Z -> bool) (n : nat) :
  P (Z.of_nat n) = true ->
  exists m, (m <= n)%nat /\ P (Z.of_nat m) = true /\
            forall j, (j < m)%nat -> P (Z.of_nat j) = false.
Proof.
  induction n as [n IH] using lt_wf_ind. intros Hn.
  destruct (forallb (fun j => negb (P (Z.of_nat j))) (seq 0 n)) eqn:Hall.
  - exists n. repeat split; auto. intros j Hj.
    rewrite forallb_forall in Hall.
    specialize (Hall j). rewrite in_seq in Hall.
    apply negb_true_iff, Hall. lia.
  - assert (Hex : exists j, (j < n)%nat /\ P (Z.of_nat j) = true).
    { clear IH Hn. induction n as [|n IHn]; [discriminate|].
      rewrite seq_S, forallb_app in Hall. simpl in Hall.
      destruct (forallb _ (seq 0 n)) eqn:Hn.
      - exists n. split; [lia|]. rewrite andb_true_r in Hall.
        now apply negb_false_iff in Hall.
      - destruct (IHn eq_refl) as (j & Hj & Hp). exists j. split; [lia|auto]. }
    destruct Hex as (j & Hj & Hp).
    destruct (IH j Hj Hp) as (m & Hm & Hpm & Hleast).
    exists m. repeat split; auto. lia.
Qed.

Lemma proof_of_work_eq (fuel : nat) (block : Block) :
  proof_of_work fuel block =
    proof_of_work_loop fuel (compute_hash (set_nonce 0 block)) (set_nonce 0 block).
Proof. reflexivity. Qed.

(** [add_block], statement by statement *)
Lemma add_block_eq (fuel : nat) (now : string) (payload : json) (bc : Blockchain) :
  add_block fuel now payload bc =
    match last (chain bc) with
    | None => (Raise IndexError, bc)
    | Some l =>
        match proof_of_work fuel (Block_init (index l + 1) now payload (hash l) 0) with
        | (Return h, mined) =>
            (Return (set_hash h mined),
             mkBlockchain (chain bc ++ [set_hash h mined]))
        | (Raise e, _) => (Raise e, bc)
        | (OutOfFuel, _) => (OutOfFuel, bc)
        end
    end.
Proof.
  unfold add_block, bind, last_block, call, chain_append, bind, get, put, ret, raise.
  cbv beta iota.
  destruct (last (chain bc)) as [l|] eqn:Hlast; cbv beta iota; [|reflexivity].
  rewrite Hlast. cbv beta iota.
  destruct (proof_of_work _ _) as [[h| |] mined]; reflexivity.
Qed.

(** The block that a returning [add_block] hands back, and the chain it
    leaves. *)
Lemma add_block_returns (fuel : nat) (now : string) (payload : json)
      (bc bc' : Blockchain) (new_block : Block) :
  add_block fuel now payload bc = (Return new_block, bc') ->
  exists l,
    last (chain bc) = Some l /\
    chain bc' = (chain bc ++ [new_block])%list /\
    index new_block = index l + 1 /\
    timestamp new_block = now /\
    data new_block = payload /\
    previous_hash new_block = hash l /\
    0 <= nonce new_block /\
    hash new_block = compute_hash new_block /\
    meets_difficulty (hash new_block) = true.
Proof.
  rewrite add_block_eq.
  destruct (last (chain bc)) as [l|]; [|discriminate].
  rewrite proof_of_work_eq.
  destruct (proof_of_work_loop _ _ _) as [[h| |] mined] eqn:Hrun; try discriminate.
  intros [= <- <-]. exists l.
  apply proof_of_work_loop_returns in Hrun as (Hh & Hmeets & Hmined & Hle).
  simpl nonce in Hle.
  rewrite Hmined. simpl. rewrite compute_hash_set_hash, <- Hmined.
  repeat split; auto.
Qed.

Lemma reachable_last (bc : Blockchain) :
  reachable bc -> exists l, last (chain bc) = Some l.
Proof.
  intros [now | bc0 bc' fuel now payload nb _ Hadd].
  - eexists. reflexivity.
  - apply add_block_returns in Hadd as (l & _ & -> & _).
    exists nb. apply last_snoc.
Qed.

(** ** Construction *)

Lemma genesis_block_fields (now : string) :
  exists genesis,
    chain (Blockchain_init now) = [genesis] /\
    index genesis = 0 /\
    timestamp genesis = now /\
    data genesis = JStr "Genesis Block" /\
    previous_hash genesis = "0" /\
    nonce genesis = 0 /\
    hash genesis = compute_hash genesis.
Proof. eexists. repeat split. Qed.

(** ** The chain is linked *)

(** C1. In every ledger that a constructed [Blockchain] reaches through
    [add_block] calls, and for every position [i > 0], the block at [i]
    stores the hash of the block at [i - 1] as its [previous_hash], and its
    index is one more than that block's. *)
Theorem chain_linked (bc : Blockchain) :
  reachable bc ->
  forall (i : nat) (b prev : Block),
    (0 < i)%nat ->
    chain bc !! i = Some b ->
    chain bc !! (i - 1)%nat = Some prev ->
    previous_hash b = hash prev /\ index b = index prev + 1.
Proof.
  induction 1 as [now | bc bc' fuel now payload nb Hreach IH Hadd];
    intros i b prev Hi Hb Hprev.
  - destruct i as [|i]; [lia|]. discriminate.
  - apply add_block_returns in Hadd
      as (l & Hlast & Hchain & Hidx & _ & _ & Hph & _).
    rewrite Hchain in Hb, Hprev.
    destruct (decide (i < length (chain bc))%nat) as [Hlt | Hge].
    + rewrite lookup_app_l in Hb, Hprev by lia. eauto.
    + assert (i = length (chain bc)) as ->.
      { apply lookup_lt_Some in Hb. rewrite length_app in Hb. simpl in Hb. lia. }
      rewrite list_lookup_middle in Hb by reflexivity.
      rewrite lookup_app_l in Hprev by lia.
      rewrite last_lookup in Hlast.
      replace (length (chain bc) - 1)%nat with (pred (length (chain bc))) in Hprev by lia.
      rewrite Hlast in Hprev.
      injection Hb as <-. injection Hprev as <-. auto.
Qed.

(** ** Stored hashes *)

(** C2. In every reachable ledger, every block after the genesis block
    stores the digest of its own fields, and that digest starts with
    [difficulty] (two) characters ['0']. *)
Theorem stored_hash_mined (bc : Blockchain) :
  reachable bc ->
  forall (i : nat) (b : Block),
    (0 < i)%nat ->
    chain bc !! i = Some b ->
    hash b = compute_hash b /\
    difficulty = 2 /\
    Py.startswith (hash b) "00" = true.
Proof.
  induction 1 as [now | bc bc' fuel now payload nb Hreach IH Hadd];
    intros i b Hi Hb.
  - destruct i as [|i]; [lia|]. discriminate.
  - apply add_block_returns in Hadd
      as (l & _ & Hchain & _ & _ & _ & _ & _ & Hhash & Hmeets).
    rewrite Hchain in Hb.
    destruct (decide (i < length (chain bc))%nat) as [Hlt | Hge].
    + rewrite lookup_app_l in Hb by lia. eauto.
    + assert (i = length (chain bc)) as ->.
      { apply lookup_lt_Some in Hb. rewrite length_app in Hb. simpl in Hb. lia. }
      rewrite list_lookup_middle in Hb by reflexivity.
      injection Hb as <-. auto.
Qed.

(** ** Mining *)

Lemma least_valid_nonce (block : Block) (n : Z) :
  0 <= n ->
  meets_difficulty (hash_at block n) = true ->
  exists m,
    0 <= m <= n /\
    meets_difficulty (hash_at block m) = true /\
    forall k, 0 <= k < m -> meets_difficulty (hash_at block k) = false.
Proof.
  intros Hn Hvalid.
  destruct (least_nonce (fun k => meets_difficulty (hash_at block k)) (Z.to_nat n))
    as (m & Hm & Hpm & Hleast).
  { now rewrite Z2Nat.id. }
  exists (Z.of_nat m). repeat split; auto; try lia.
  intros k Hk. rewrite <- (Z2Nat.id k) by lia. apply Hleast. lia.
Qed.

Lemma proof_of_work_finds (block : Block) (m : Z) (fuel : nat) :
  0 <= m ->
  meets_difficulty (hash_at block m) = true ->
  (forall k, 0 <= k < m -> meets_difficulty (hash_at block k) = false) ->
  (Z.to_nat m <= fuel)%nat ->
  proof_of_work fuel block = (Return (hash_at block m), set_nonce m block).
Proof.
  intros Hm Hvalid Hleast Hfuel.
  rewrite proof_of_work_eq.
  rewrite (proof_of_work_loop_finds (Z.to_nat m)); simpl nonce;
    rewrite ?hash_at_set_nonce, ?set_nonce_twice, ?Z2Nat.id by lia; auto.
  intros j Hj. rewrite hash_at_set_nonce. apply Hleast. lia.
Qed.

(** C8. When some nonce [n >= 0] gives [block] a digest that meets the
    difficulty, there is a least such nonce [m]; [proof_of_work] run with
    at least [m] units of fuel returns the digest for [m] and leaves the
    block with nonce [m]. When [block] is the block that [add_block] builds
    on a reachable ledger, [add_block] with that fuel returns the mined
    block and has appended it to the chain. *)
Theorem proof_of_work_terminates (block : Block) (n : Z) :
  0 <= n ->
  meets_difficulty (hash_at block n) = true ->
  exists m,
    0 <= m <= n /\
    meets_difficulty (hash_at block m) = true /\
    (forall k, 0 <= k < m -> meets_difficulty (hash_at block k) = false) /\
    (forall fuel, (Z.to_nat m <= fuel)%nat ->
       proof_of_work fuel block = (Return (hash_at block m), set_nonce m block)) /\
    (forall bc now payload,
       reachable bc ->
       exists l,
         last (chain bc) = Some l /\
         (block = Block_init (index l + 1) now payload (hash l) 0 ->
          forall fuel, (Z.to_nat m <= fuel)%nat ->
            let new_block :=
              mkBlock (index l + 1) now payload (hash l) m (hash_at block m) in
            add_block fuel now payload bc =
              (Return new_block, mkBlockchain (chain bc ++ [new_block])))).
Proof.
  intros Hn Hvalid.
  destruct (least_valid_nonce block n Hn Hvalid) as (m & Hm & Hpm & Hleast).
  exists m. repeat split; auto; try lia.
  - intros fuel Hfuel. apply proof_of_work_finds; auto; lia.
  - intros bc now payload Hreach.
    destruct (reachable_last bc Hreach) as (l & Hl). exists l. split; auto.
    intros Hblock fuel Hfuel. cbv zeta.
    rewrite add_block_eq, Hl, <- Hblock.
    rewrite (proof_of_work_finds block m) by (auto; lia).
    now rewrite Hblock.
Qed.

(** ** The nonce a block comes with *)

Lemma proof_of_work_loop_set_hash (fuel : nat) :
  forall (h s : string) (block : Block),
    proof_of_work_loop fuel h (set_hash s block) =
      (fst (proof_of_work_loop fuel h block),
       set_hash s (snd (proof_of_work_loop fuel h block))).
Proof.
  induction fuel as [|fuel IH]; intros h s block;
    rewrite !(proof_of_work_loop_eq _ h);
    destruct (meets_difficulty h); try reflexivity.
  cbv zeta. apply (IH _ s (set_nonce (nonce block + 1) block)).
Qed.

(** C9. Two blocks with the same index, timestamp, data and previous hash,
    whatever nonce each holds, get the same result from [proof_of_work]
    (the same hash, or both searches still running when the fuel is used
    up) and are left with the same nonce. *)
Theorem proof_of_work_resets_nonce (fuel : nat) (b1 b2 : Block) :
  index b1 = index b2 ->
  timestamp b1 = timestamp b2 ->
  data b1 = data b2 ->
  previous_hash b1 = previous_hash b2 ->
  fst (proof_of_work fuel b1) = fst (proof_of_work fuel b2) /\
  nonce (snd (proof_of_work fuel b1)) = nonce (snd (proof_of_work fuel b2)).
Proof.
  intros Hi Ht Hd Hp.
  assert (Hb : set_nonce 0 b1 = set_hash (hash b1) (set_nonce 0 b2)).
  { destruct b1, b2; simpl in *. now subst. }
  rewrite !proof_of_work_eq, Hb, compute_hash_set_hash.
  rewrite proof_of_work_loop_set_hash. simpl. auto.
Qed.

End LedgerProperties.

(** * Properties of the token ledger *)

Section TokenProperties.

Implicit Types (t : BlueCarbonToken) (d : gmap string Z).

Lemma sum_values_empty : sum_values ∅ = 0.
Proof. apply map_fold_empty. Qed.

Lemma sum_values_insert_fresh d key value :
  d !! key = None -> sum_values (<[key := value]> d) = sum_values d + value.
Proof.
  intros Hfresh. unfold sum_values.
  rewrite map_fold_insert_L; auto. intros; lia.
Qed.

Lemma sum_values_delete d key value :
  d !! key = Some value -> sum_values d = sum_values (delete key d) + value.
Proof.
  intros Hkey. unfold sum_values.
  rewrite (map_fold_delete_L _ _ key value d); auto. intros; lia.
Qed.

(** [d[key] = value] moves the sum by the difference with what [key] held. *)
Lemma sum_values_setitem d key value :
  sum_values (<[key := value]> d) = sum_values d - dict_get d key 0 + value.
Proof.
  unfold dict_get. destruct (d !! key) as [old|] eqn:Hkey.
  - rewrite <- insert_delete_eq, sum_values_insert_fresh by apply lookup_delete_eq.
    rewrite (sum_values_delete d key old Hkey). lia.
  - rewrite sum_values_insert_fresh by assumption. lia.
Qed.

Lemma dict_get_setitem_eq d key value default :
  dict_get (<[key := value]> d) key default = value.
Proof. unfold dict_get. now rewrite lookup_insert_eq. Qed.

Lemma dict_get_setitem_ne d key key' value default :
  key <> key' ->
  dict_get (<[key := value]> d) key' default = dict_get d key' default.
Proof. intros Hne. unfold dict_get. now rewrite lookup_insert_ne. Qed.

(** [issue], statement by statement *)
Lemma issue_eq user amount t :
  issue user amount t =
    (Return tt,
     mkToken (name t) (symbol t)
             (<[user := dict_get (balances t) user 0 + amount]> (balances t))
             (total_supply t + amount)).
Proof. reflexivity. Qed.

(** [transfer], statement by statement *)
Lemma transfer_eq sender receiver amount t :
  transfer sender receiver amount t =
    if dict_get (balances t) sender 0 >=? amount then
      match balances t !! sender with
      | Some old =>
          let debited := <[sender := old - amount]> (balances t) in
          (Return true,
           set_balances (<[receiver := dict_get debited receiver 0 + amount]> debited) t)
      | None => (Raise (KeyError sender), t)
      end
    else (Return false, t).
Proof.
  unfold transfer, bind, get, balances_getitem, bind, get. cbv beta iota.
  destruct (dict_get (balances t) sender 0 >=? amount); [|reflexivity].
  cbv beta iota. destruct (balances t !! sender); reflexivity.
Qed.

Lemma issue_supply_matches user amount t :
  supply_matches t -> supply_matches (snd (issue user amount t)).
Proof.
  unfold supply_matches. rewrite issue_eq. simpl. intros ->.
  rewrite sum_values_setitem. lia.
Qed.

Lemma transfer_sum_values sender receiver amount t :
  sum_values (balances (snd (transfer sender receiver amount t))) =
    sum_values (balances t).
Proof.
  rewrite transfer_eq.
  destruct (dict_get (balances t) sender 0 >=? amount); [|reflexivity].
  destruct (balances t !! sender) as [old|] eqn:Hold; [|reflexivity].
  cbn [snd balances set_balances]. rewrite !sum_values_setitem.
  assert (dict_get (balances t) sender 0 = old) as ->
    by (unfold dict_get; now rewrite Hold).
  lia.
Qed.

Lemma transfer_total_supply sender receiver amount t :
  total_supply (snd (transfer sender receiver amount t)) = total_supply t.
Proof.
  rewrite transfer_eq.
  destruct (dict_get (balances t) sender 0 >=? amount); [|reflexivity].
  destruct (balances t !! sender); reflexivity.
Qed.

Lemma exec_op_supply_matches o t :
  supply_matches t -> supply_matches (exec_op o t).
Proof.
  destruct o as [user amount | sender receiver amount]; simpl.
  - apply issue_supply_matches.
  - unfold supply_matches.
    rewrite transfer_sum_values, transfer_total_supply. auto.
Qed.

(** An invariant of every call holds after every sequence of calls. *)
Lemma exec_ops_invariant (Inv : BlueCarbonToken -> Prop) (ops : list token_op) :
  Forall (fun o => forall t, Inv t -> Inv (exec_op o t)) ops ->
  forall t, Inv t -> Inv (exec_ops ops t).
Proof.
  unfold exec_ops. induction 1 as [|o ops Ho _ IH]; intros t Ht; simpl; auto.
Qed.

(** ** Supply *)

(** C3. From a fresh [BlueCarbonToken], after every sequence of [issue] and
    [transfer] calls, [total_supply] is the sum of the values of
    [balances]. *)
Theorem total_supply_is_sum (name symbol : string) (ops : list token_op) :
  let t := exec_ops ops (BlueCarbonToken_init name symbol) in
  total_supply t = sum_values (balances t).
Proof.
  apply (exec_ops_invariant supply_matches).
  - apply Forall_forall. intros o _ t. apply exec_op_supply_matches.
  - unfold supply_matches. simpl. now rewrite sum_values_empty.
Qed.

(** ** Transfers *)

(** C4. When the sender's balance, 0 for a sender without an entry, is
    below the amount, [transfer] returns [False] and the ledger is as it
    was: balances, total supply and the rest. *)
Theorem transfer_insufficient_funds t (sender receiver : string) (amount : Z) :
  dict_get (balances t) sender 0 < amount ->
  transfer sender receiver amount t = (Return false, t).
Proof.
  intros Hlow. rewrite transfer_eq.
  destruct (Z.geb_spec (dict_get (balances t) sender 0) amount); [lia|reflexivity].
Qed.

(** A sender with an entry that covers the amount: the ledger after the
    transfer. *)
Lemma transfer_covered t (sender receiver : string) (amount balance : Z) :
  balances t !! sender = Some balance ->
  balance >= amount ->
  transfer sender receiver amount t =
    (Return true,
     set_balances
       (<[receiver := dict_get (<[sender := balance - amount]> (balances t)) receiver 0
                      + amount]>
          (<[sender := balance - amount]> (balances t))) t).
Proof.
  intros Hsender Hcover. rewrite transfer_eq.
  unfold dict_get at 1. rewrite Hsender.
  destruct (Z.geb_spec balance amount); [reflexivity|lia].
Qed.

(** A sender that has an entry, and a receiver that differs. When the
    sender's balance (the value stored under the sender's key) is at least
    the amount,
    [transfer] returns [True]; the sender's balance has gone down by the
    amount, the receiver's balance (0 when the receiver had no entry) has
    gone up by the amount, every other entry and [total_supply] are as they
    were. In particular, a transfer of 50 from [NGO_1] to [Community_1] with
    balances [NGO_1: 80, Community_1: 30] gives [NGO_1: 30,
    Community_1: 80]. *)
Theorem transfer_sufficient_funds :
  (forall t (sender receiver : string) (amount balance : Z),
      sender <> receiver ->
      balances t !! sender = Some balance ->
      balance >= amount ->
      exists t',
        transfer sender receiver amount t = (Return true, t') /\
        balances t' !! sender = Some (balance - amount) /\
        balances t' !! receiver = Some (dict_get (balances t) receiver 0 + amount) /\
        (forall user, user <> sender -> user <> receiver ->
                      balances t' !! user = balances t !! user) /\
        total_supply t' = total_supply t) /\
  (forall (token_name token_symbol : string) (supply : Z),
      transfer "NGO_1" "Community_1" 50
               (mkToken token_name token_symbol
                        {["NGO_1" := 80; "Community_1" := 30]} supply) =
        (Return true,
         mkToken token_name token_symbol
                 {["NGO_1" := 30; "Community_1" := 80]} supply)).
Proof.
  split.
  - intros t sender receiver amount balance Hne Hsender Hcover.
    eexists. split; [apply (transfer_covered _ _ _ _ _ Hsender Hcover)|].
    cbn [balances set_balances total_supply].
    rewrite dict_get_setitem_ne by assumption.
    repeat split.
    + rewrite lookup_insert_ne by congruence. apply lookup_insert_eq.
    + apply lookup_insert_eq.
    + intros user Hs Hr. now rewrite !lookup_insert_ne by congruence.
  - intros token_name token_symbol supply.
    rewrite (transfer_covered _ _ _ _ 80) by (reflexivity || lia).
    reflexivity.
Qed.

(** ** Balances stay non-negative *)

Lemma issue_balances_nonneg user amount t :
  0 <= amount -> balances_nonneg t -> balances_nonneg (snd (issue user amount t)).
Proof.
  unfold balances_nonneg. rewrite issue_eq. cbn [snd balances].
  intros Hamount Hinv. apply map_Forall_insert_2; [|assumption].
  unfold dict_get. destruct (balances t !! user) as [old|] eqn:Hold; [|lia].
  apply Hinv in Hold. lia.
Qed.

Lemma transfer_balances_nonneg sender receiver amount t :
  0 <= amount ->
  balances_nonneg t -> balances_nonneg (snd (transfer sender receiver amount t)).
Proof.
  unfold balances_nonneg. rewrite transfer_eq. intros Hamount Hinv.
  destruct (Z.geb_spec (dict_get (balances t) sender 0) amount) as [Hcover|];
    [|assumption].
  unfold dict_get in Hcover.
  destruct (balances t !! sender) as [old|] eqn:Hold; [|assumption].
  cbn [snd balances set_balances].
  assert (Hdebited : map_Forall (fun _ balance => 0 <= balance)
                                (<[sender := old - amount]> (balances t))).
  { apply map_Forall_insert_2; [lia|assumption]. }
  apply map_Forall_insert_2; [|assumption].
  unfold dict_get.
  destruct (<[sender := old - amount]> (balances t) !! receiver) as [r|] eqn:Hr; [|lia].
  apply Hdebited in Hr. lia.
Qed.

Lemma amounts_nonneg_step (ops : list token_op) :
  amounts_nonneg ops = true ->
  Forall (fun o => forall t, balances_nonneg t -> balances_nonneg (exec_op o t)) ops.
Proof.
  unfold amounts_nonneg. rewrite forallb_forall, Forall_forall.
  intros Hops o Ho t. specialize (Hops o).
  rewrite <- list_elem_of_In in Hops. specialize (Hops Ho).
  destruct o as [user amount | sender receiver amount]; simpl.
  - apply issue_balances_nonneg. lia.
  - apply transfer_balances_nonneg. lia.
Qed.

(** C6, with the transfers restricted as the issues are. From a fresh
    [BlueCarbonToken], after every sequence of [issue] and [transfer] calls
    whose amounts are all non-negative, every balance in [balances] is
    non-negative. *)
Theorem balances_never_negative (name symbol : string) (ops : list token_op) :
  amounts_nonneg ops = true ->
  forall (user : string) (balance : Z),
    balances (exec_ops ops (BlueCarbonToken_init name symbol)) !! user = Some balance ->
    0 <= balance.
Proof.
  intros Hops user balance.
  apply (exec_ops_invariant balances_nonneg ops (amounts_nonneg_step ops Hops)
                            (BlueCarbonToken_init name symbol)).
  unfold balances_nonneg. simpl. apply map_Forall_empty.
Qed.

(** C6 as it is worded lets a transfer carry any amount. A transfer of a
    negative amount passes the balance check and takes the amount from the
    receiver: after [issue("NGO_1", 50)] and
    [transfer("NGO_1", "Community_1", -20)] the balance of [Community_1] is
    -20. *)
Lemma negative_transfer_counterexample :
  let ops := [Issue "NGO_1" 50; Transfer "NGO_1" "Community_1" (-20)] in
  let t := exec_ops ops (BlueCarbonToken_init "BlueCarbonToken" "BCT") in
  issued_amounts_nonneg ops = true /\
  balances t !! "Community_1" = Some (-20) /\
  ~ (forall (name symbol : string) (ops : list token_op),
        issued_amounts_nonneg ops = true ->
        forall (user : string) (balance : Z),
          balances (exec_ops ops (BlueCarbonToken_init name symbol)) !! user
            = Some balance ->
          0 <= balance).
Proof.
  assert (Hrun : balances (exec_ops [Issue "NGO_1" 50; Transfer "NGO_1" "Community_1" (-20)]
                                    (BlueCarbonToken_init "BlueCarbonToken" "BCT"))
                   !! "Community_1" = Some (-20)).
  { vm_compute. reflexivity. }
  split; [reflexivity|]. split; [exact Hrun|].
  intros Hclaim.
  apply (Hclaim _ _ [Issue "NGO_1" 50; Transfer "NGO_1" "Community_1" (-20)])
    in Hrun; [lia | reflexivity].
Qed.

(** ** Self-transfer *)

(** A user with an entry that covers the amount: the transfer to oneself
    returns [True] and changes nothing. *)
Lemma transfer_self_with_entry t (user : string) (amount balance : Z) :
  balances t !! user = Some balance ->
  balance >= amount ->
  transfer user user amount t = (Return true, t).
Proof.
  intros Huser Hcover. rewrite (transfer_covered _ _ _ _ _ Huser Hcover).
  rewrite dict_get_setitem_eq, insert_insert_eq.
  replace (balance - amount + amount) with balance by lia.
  rewrite insert_id by assumption. now destruct t.
Qed.

(** A user without an entry and an amount of 0 or less: the check reads the
    balance as 0 and passes, and the debit raises [KeyError]. *)
Lemma transfer_without_entry t (sender receiver : string) (amount : Z) :
  balances t !! sender = None ->
  amount <= 0 ->
  transfer sender receiver amount t = (Raise (KeyError sender), t).
Proof.
  intros Hsender Hamount. rewrite transfer_eq.
  unfold dict_get. rewrite Hsender.
  destruct (Z.geb_spec 0 amount); [reflexivity|lia].
Qed.

(** C10, at the input where the code departs from it. On a fresh ledger
    [NGO_1] has no entry, so its balance counts as 0 and covers an amount of
    0; [transfer("NGO_1", "NGO_1", 0)] does not return [True], it raises
    [KeyError]. *)
Theorem transfer_self_without_entry_raises :
  let t := BlueCarbonToken_init "BlueCarbonToken" "BCT" in
  dict_get (balances t) "NGO_1" 0 >= 0 /\
  transfer "NGO_1" "NGO_1" 0 t = (Raise (KeyError "NGO_1"), t).
Proof. split; [vm_compute; discriminate | reflexivity]. Qed.

(** C5, at the input where the code departs from it. On a fresh ledger
    [NCCR_Admin] has no entry, so the check reads its balance as 0, which is
    at least an amount of 0; [transfer("NCCR_Admin", "NGO_1", 0)] to another
    user does not return [True]: the debit raises [KeyError], and the ledger
    is as it was. *)
Theorem transfer_from_absent_sender_raises :
  let t := BlueCarbonToken_init "BlueCarbonToken" "BCT" in
  "NCCR_Admin" <> "NGO_1" /\
  dict_get (balances t) "NCCR_Admin" 0 >= 0 /\
  transfer "NCCR_Admin" "NGO_1" 0 t = (Raise (KeyError "NCCR_Admin"), t).
Proof.
  split; [discriminate|]. split; [vm_compute; discriminate | reflexivity].
Qed.

End TokenProperties.

(** * The sample run *)

Lemma sample_genesis_built :
  run_Blockchain_init "2025-01-01 12:00:00.000000" = mkBlockchain [sample_genesis].
Proof. vm_compute. reflexivity. Qed.

Lemma sample_block1_added :
  run_add_block 3 "2025-01-01 12:00:01.000013" (nth 0 sample_data JNull)
                (mkBlockchain [sample_genesis]) =
    (Return sample_block1, mkBlockchain [sample_genesis; sample_block1]).
Proof. vm_compute. reflexivity. Qed.

Lemma sample_block2_added :
  run_add_block 3 "2025-01-01 12:00:02.000022" (nth 1 sample_data JNull)
                (mkBlockchain [sample_genesis; sample_block1]) =
    (Return sample_block2, sample_chain).
Proof. vm_compute. reflexivity. Qed.

Lemma sample_chain_reachable : run_reachable sample_chain.
Proof.
  eapply reachable_add_block; [|exact sample_block2_added].
  eapply reachable_add_block; [|exact sample_block1_added].
  rewrite <- sample_genesis_built. apply reachable_init.
Qed.

(** C7. A constructed [Blockchain] holds one block, the genesis block: index
    0, payload "Genesis Block", previous hash "0", nonce 0, and as its hash
    the digest of these fields, whatever digest that is. No nonce is
    searched: with the clock at 2025-01-01 12:00:00 the program's genesis
    hash starts with "9e" and stays. *)
Theorem genesis_block_unmined :
  (forall (json_dumps : json -> string) (sha256_hexdigest : string -> string)
          (now : string),
      exists genesis,
        chain (Blockchain_init json_dumps sha256_hexdigest now) = [genesis] /\
        index genesis = 0 /\
        timestamp genesis = now /\
        data genesis = JStr "Genesis Block" /\
        previous_hash genesis = "0" /\
        nonce genesis = 0 /\
        hash genesis = compute_hash json_dumps sha256_hexdigest genesis) /\
  (chain (run_Blockchain_init "2025-01-01 12:00:00.000000") = [sample_genesis] /\
   meets_difficulty (hash sample_genesis) = false).
Proof.
  split.
  - apply genesis_block_fields.
  - split; [now rewrite sample_genesis_built | reflexivity].
Qed.

(** The issues of the sample run: 50 then 30 to [NGO_1], 30 to
    [Community_1]. *)
Example sample_tokens_issued :
  balances sample_tokens = {["NGO_1" := 80; "Community_1" := 30]} /\
  total_supply sample_tokens = 110.
Proof. split; reflexivity. Qed.

(** Mining the first sample block tries the nonces 0, 1 and 2 in vain. *)
Example sample_candidate_needs_fuel :
  run_proof_of_work 2 sample_candidate = (OutOfFuel, set_nonce 2 sample_candidate).
Proof. vm_compute. reflexivity. Qed.

(** ** The theorems on the sample run *)

Lemma chain_linked_sample :
  run_reachable sample_chain /\
  (0 < 2)%nat /\
  chain sample_chain !! 2%nat = Some sample_block2 /\
  chain sample_chain !! (2 - 1)%nat = Some sample_block1 /\
  previous_hash sample_block2 = hash sample_block1 /\
  index sample_block2 = index sample_block1 + 1.
Proof.
  split; [exact sample_chain_reachable|].
  split; [lia|]. split; [reflexivity|]. split; [reflexivity|].
  apply (chain_linked Json.dumps Hashlib.sha256_hexdigest sample_chain
                      sample_chain_reachable 2 sample_block2 sample_block1);
    [lia | reflexivity | reflexivity].
Defined.

Lemma stored_hash_mined_sample :
  run_reachable sample_chain /\
  (0 < 1)%nat /\
  chain sample_chain !! 1%nat = Some sample_block1 /\
  hash sample_block1 = run_compute_hash sample_block1 /\
  difficulty = 2 /\
  Py.startswith (hash sample_block1) "00" = true.
Proof.
  split; [exact sample_chain_reachable|].
  split; [lia|]. split; [reflexivity|].
  apply (stored_hash_mined Json.dumps Hashlib.sha256_hexdigest sample_chain
                           sample_chain_reachable 1 sample_block1);
    [lia | reflexivity].
Defined.

Lemma proof_of_work_terminates_sample :
  0 <= 3 /\
  meets_difficulty (run_hash_at sample_candidate 3) = true /\
  exists m,
    0 <= m <= 3 /\
    meets_difficulty (run_hash_at sample_candidate m) = true /\
    (forall k, 0 <= k < m -> meets_difficulty (run_hash_at sample_candidate k) = false) /\
    (forall fuel, (Z.to_nat m <= fuel)%nat ->
       run_proof_of_work fuel sample_candidate =
         (Return (run_hash_at sample_candidate m), set_nonce m sample_candidate)) /\
    (forall bc now payload,
       run_reachable bc ->
       exists l,
         last (chain bc) = Some l /\
         (sample_candidate =
            Block_init Json.dumps Hashlib.sha256_hexdigest
                       (index l + 1) now payload (hash l) 0 ->
          forall fuel, (Z.to_nat m <= fuel)%nat ->
            let new_block :=
              mkBlock (index l + 1) now payload (hash l) m
                      (run_hash_at sample_candidate m) in
            run_add_block fuel now payload bc =
              (Return new_block, mkBlockchain (chain bc ++ [new_block])))).
Proof.
  split; [lia|]. split; [vm_compute; reflexivity|].
  apply (proof_of_work_terminates Json.dumps Hashlib.sha256_hexdigest
                                  sample_candidate 3);
    [lia | vm_compute; reflexivity].
Defined.

Lemma proof_of_work_resets_nonce_sample :
  let b1 := sample_candidate in
  let b2 := set_hash "stale" (set_nonce 1000 sample_candidate) in
  index b1 = index b2 /\
  timestamp b1 = timestamp b2 /\
  data b1 = data b2 /\
  previous_hash b1 = previous_hash b2 /\
  fst (run_proof_of_work 3 b2) = Return (hash sample_block1) /\
  fst (run_proof_of_work 3 b1) = fst (run_proof_of_work 3 b2) /\
  nonce (snd (run_proof_of_work 3 b1)) = nonce (snd (run_proof_of_work 3 b2)).
Proof.
  cbv zeta. do 4 (split; [reflexivity|]). split; [vm_compute; reflexivity|].
  apply (proof_of_work_resets_nonce Json.dumps Hashlib.sha256_hexdigest 3);
    reflexivity.
Defined.

Lemma transfer_insufficient_funds_sample :
  dict_get (balances sample_tokens) "NGO_1" 0 < 100 /\
  transfer "NGO_1" "Community_1" 100 sample_tokens = (Return false, sample_tokens).
Proof.
  split; [reflexivity|].
  apply (transfer_insufficient_funds sample_tokens "NGO_1" "Community_1" 100).
  reflexivity.
Defined.

Lemma transfer_sufficient_funds_sample :
  "NGO_1" <> "Community_1" /\
  balances sample_tokens !! "NGO_1" = Some 80 /\
  80 >= 50 /\
  exists t',
    transfer "NGO_1" "Community_1" 50 sample_tokens = (Return true, t') /\
    balances t' !! "NGO_1" = Some (80 - 50) /\
    balances t' !! "Community_1" =
      Some (dict_get (balances sample_tokens) "Community_1" 0 + 50) /\
    (forall user, user <> "NGO_1" -> user <> "Community_1" ->
                  balances t' !! user = balances sample_tokens !! user) /\
    total_supply t' = total_supply sample_tokens.
Proof.
  split; [discriminate|]. split; [reflexivity|]. split; [lia|].
  apply (proj1 transfer_sufficient_funds sample_tokens "NGO_1" "Community_1" 50 80);
    [discriminate | reflexivity | lia].
Defined.

Lemma balances_never_negative_sample :
  let ops := [Issue "NGO_1" 50; Issue "NGO_1" 30; Issue "Community_1" 30;
              Transfer "NGO_1" "Community_1" 50] in
  amounts_nonneg ops = true /\
  balances (exec_ops ops (BlueCarbonToken_init "BlueCarbonToken" "BCT")) !! "NGO_1"
    = Some 30 /\
  0 <= 30.
Proof.
  cbv zeta. split; [reflexivity|]. split; [reflexivity|].
  apply (balances_never_negative "BlueCarbonToken" "BCT"
           [Issue "NGO_1" 50; Issue "NGO_1" 30; Issue "Community_1" 30;
            Transfer "NGO_1" "Community_1" 50]
           eq_refl "NGO_1" 30).
  reflexivity.
Defined.

(** * More properties of the ledger *)

Section LedgerStructure.

Variable json_dumps : json -> string.
Variable sha256_hexdigest : string -> string.

Local Abbreviation compute_hash := (compute_hash json_dumps sha256_hexdigest).
Local Abbreviation hash_at := (hash_at json_dumps sha256_hexdigest).
Local Abbreviation Block_init := (Block_init json_dumps sha256_hexdigest).
Local Abbreviation Blockchain_init := (Blockchain_init json_dumps sha256_hexdigest).
Local Abbreviation proof_of_work_loop := (proof_of_work_loop json_dumps sha256_hexdigest).
Local Abbreviation proof_of_work := (proof_of_work json_dumps sha256_hexdigest).
Local Abbreviation add_block := (add_block json_dumps sha256_hexdigest).
Local Abbreviation add_blocks := (add_blocks json_dumps sha256_hexdigest).
Local Abbreviation reachable := (reachable json_dumps sha256_hexdigest).

(** A reachable chain starts with the genesis block of its construction. *)
Lemma reachable_genesis (bc : Blockchain) :
  reachable bc ->
  exists now rest,
    chain bc = Block_init 0 now (JStr "Genesis Block") "0" 0 :: rest.
Proof.
  induction 1 as [now | bc bc' fuel now payload nb Hreach IH Hadd].
  - exists now, []. reflexivity.
  - destruct IH as (now0 & rest & Hchain).
    apply (add_block_returns json_dumps sha256_hexdigest) in Hadd
      as (l & _ & Hchain' & _).
    exists now0, (rest ++ [nb])%list. now rewrite Hchain', Hchain.
Qed.

Lemma reachable_indices (bc : Blockchain) :
  reachable bc ->
  forall (i : nat) (b : Block), chain bc !! i = Some b -> index b = Z.of_nat i.
Proof.
  induction 1 as [now | bc bc' fuel now payload nb Hreach IH Hadd]; intros i b Hb.
  - destruct i as [|i]; [|discriminate]. injection Hb as <-. reflexivity.
  - apply (add_block_returns json_dumps sha256_hexdigest) in Hadd
      as (l & Hlast & Hchain & Hidx & _).
    rewrite Hchain in Hb.
    destruct (decide (i < length (chain bc))%nat) as [Hlt | Hge].
    + rewrite lookup_app_l in Hb by lia. eauto.
    + assert (i = length (chain bc)) as ->.
      { apply lookup_lt_Some in Hb. rewrite length_app in Hb. simpl in Hb. lia. }
      rewrite list_lookup_middle in Hb by reflexivity. injection Hb as <-.
      rewrite last_lookup in Hlast.
      assert (Hlen : (0 < length (chain bc))%nat)
        by (apply lookup_lt_Some in Hlast; lia).
      apply IH in Hlast. rewrite Hidx, Hlast. lia.
Qed.

Lemma reachable_stored_hash (bc : Blockchain) :
  reachable bc ->
  forall (i : nat) (b : Block), chain bc !! i = Some b -> hash b = compute_hash b.
Proof.
  induction 1 as [now | bc bc' fuel now payload nb Hreach IH Hadd]; intros i b Hb.
  - destruct i as [|i]; [|discriminate]. injection Hb as <-. reflexivity.
  - apply (add_block_returns json_dumps sha256_hexdigest) in Hadd
      as (l & _ & Hchain & _ & _ & _ & _ & _ & Hhash & _).
    rewrite Hchain in Hb.
    destruct (decide (i < length (chain bc))%nat) as [Hlt | Hge].
    + rewrite lookup_app_l in Hb by lia. eauto.
    + assert (i = length (chain bc)) as ->.
      { apply lookup_lt_Some in Hb. rewrite length_app in Hb. simpl in Hb. lia. }
      rewrite list_lookup_middle in Hb by reflexivity. now injection Hb as <-.
Qed.

Lemma reachable_previous_hash (bc : Blockchain) :
  reachable bc ->
  forall (i : nat) (b prev : Block),
    chain bc !! S i = Some b -> chain bc !! i = Some prev ->
    previous_hash b = hash prev.
Proof.
  induction 1 as [now | bc bc' fuel now payload nb Hreach IH Hadd];
    intros i b prev Hb Hprev.
  - discriminate.
  - apply (add_block_returns json_dumps sha256_hexdigest) in Hadd
      as (l & Hlast & Hchain & _ & _ & _ & Hph & _).
    rewrite Hchain in Hb, Hprev.
    destruct (decide (S i < length (chain bc))%nat) as [Hlt | Hge].
    + rewrite lookup_app_l in Hb, Hprev by lia. eauto.
    + assert (S i = length (chain bc)) as Hi.
      { apply lookup_lt_Some in Hb. rewrite length_app in Hb. simpl in Hb. lia. }
      rewrite Hi, list_lookup_middle in Hb by reflexivity. injection Hb as <-.
      rewrite lookup_app_l in Hprev by lia.
      rewrite last_lookup, <- Hi in Hlast. simpl in Hlast.
      rewrite Hlast in Hprev. now injection Hprev as <-.
Qed.

(** X1. In every reachable ledger the block at position [i] has index [i];
    the block at position 0 is the genesis block, and it is the only block
    whose index is 0. *)
Theorem index_is_position (bc : Blockchain) :
  reachable bc ->
  (forall (i : nat) (b : Block), chain bc !! i = Some b -> index b = Z.of_nat i) /\
  (exists now, chain bc !! 0%nat = Some (Block_init 0 now (JStr "Genesis Block") "0" 0)) /\
  (forall (i : nat) (b : Block), chain bc !! i = Some b -> index b = 0 -> i = 0%nat).
Proof.
  intros Hreach. split; [apply (reachable_indices bc Hreach)|]. split.
  - destruct (reachable_genesis bc Hreach) as (now & rest & ->). now exists now.
  - intros i b Hb Hzero. apply (reachable_indices bc Hreach) in Hb. lia.
Qed.

(** X2. In every reachable ledger every block, the genesis block too, stores
    the digest of its own fields, and the [previous_hash] of every later
    block is the digest recomputed from the fields of the block before it. *)
Theorem previous_hash_recomputed (bc : Blockchain) :
  reachable bc ->
  (forall (i : nat) (b : Block), chain bc !! i = Some b -> hash b = compute_hash b) /\
  (forall (i : nat) (b prev : Block),
      chain bc !! S i = Some b -> chain bc !! i = Some prev ->
      previous_hash b = compute_hash prev).
Proof.
  intros Hreach. split; [apply (reachable_stored_hash bc Hreach)|].
  intros i b prev Hb Hprev.
  rewrite (reachable_previous_hash bc Hreach i b prev Hb Hprev).
  apply (reachable_stored_hash bc Hreach i prev Hprev).
Qed.

Lemma proof_of_work_loop_no_raise (fuel : nat) :
  forall (block mined : Block) (h : string) (e : exn),
    proof_of_work_loop fuel h block <> (Raise e, mined).
Proof.
  induction fuel as [|fuel IH]; intros block mined h e;
    rewrite (proof_of_work_loop_eq json_dumps sha256_hexdigest);
    destruct (meets_difficulty h); try discriminate.
  apply IH.
Qed.

(** An [add_block] that does not return has left the ledger as it was. *)
Lemma add_block_stops_unchanged (fuel : nat) (now : string) (payload : json)
      (bc bc' : Blockchain) (c : completion Block) :
  add_block fuel now payload bc = (c, bc') ->
  (exists new_block, c = Return new_block) \/ bc' = bc.
Proof.
  rewrite (add_block_eq json_dumps sha256_hexdigest).
  destruct (last (chain bc)) as [l|]; [|intros [= _ <-]; now right].
  destruct (proof_of_work _ _) as [[h| |] mined];
    intros [= <- <-]; eauto.
Qed.

(** X3. What [add_block] leaves behind. When it returns, the chain has grown
    by the returned block alone, which is now [last_block]; it raises only
    [IndexError], only on an empty chain; and whenever it does not return,
    the ledger is as it was. *)
Theorem add_block_outcomes (fuel : nat) (now : string) (payload : json)
        (bc : Blockchain) :
  match add_block fuel now payload bc with
  | (Return new_block, bc') =>
      chain bc' = (chain bc ++ [new_block])%list /\
      last_block bc' = (Return new_block, bc') /\
      chain bc <> []
  | (Raise e, bc') => e = IndexError /\ chain bc = [] /\ bc' = bc
  | (OutOfFuel, bc') => bc' = bc /\ chain bc <> []
  end.
Proof.
  rewrite (add_block_eq json_dumps sha256_hexdigest).
  destruct (last (chain bc)) as [l|] eqn:Hlast.
  - assert (Hne : chain bc <> []) by (intros Hnil; now rewrite Hnil in Hlast).
    destruct (proof_of_work _ _) as [[h| |] mined] eqn:Hpow.
    + repeat split; auto.
      unfold last_block, bind, get, ret. cbn [chain]. now rewrite last_snoc.
    + exfalso. rewrite (proof_of_work_eq json_dumps sha256_hexdigest) in Hpow.
      now apply proof_of_work_loop_no_raise in Hpow.
    + auto.
  - repeat split. now apply last_None.
Qed.

(** ** What a search has tried *)

(** A returning loop has used one unit of fuel for each nonce it passed, and
    none of the nonces it passed meets the difficulty. *)
Lemma proof_of_work_loop_tried (fuel : nat) :
  forall (block block' : Block) (h : string),
    proof_of_work_loop fuel (compute_hash block) block = (Return h, block') ->
    (Z.to_nat (nonce block' - nonce block) <= fuel)%nat /\
    forall k, nonce block <= k < nonce block' ->
              meets_difficulty (hash_at block k) = false.
Proof.
  induction fuel as [|fuel IH]; intros block block' h;
    rewrite (proof_of_work_loop_eq json_dumps sha256_hexdigest);
    destruct (meets_difficulty (compute_hash block)) eqn:Hm; try discriminate.
  - intros [= <- <-]. split; [lia|]. intros k Hk. lia.
  - intros [= <- <-]. split; [lia|]. intros k Hk. lia.
  - cbv zeta. intros Hrun.
    pose proof (proof_of_work_loop_returns json_dumps sha256_hexdigest
                  _ _ _ _ Hrun) as (_ & _ & _ & Hle).
    apply IH in Hrun as (Hfuel & Htried). simpl nonce in Hfuel, Htried, Hle.
    split; [lia|]. intros k Hk.
    destruct (decide (k = nonce block)) as [->|Hne].
    + now rewrite (hash_at_nonce json_dumps sha256_hexdigest).
    + rewrite <- (hash_at_set_nonce json_dumps sha256_hexdigest k (nonce block + 1)).
      apply Htried. lia.
Qed.

(** X4. When [proof_of_work] returns, the block has kept all its fields but
    the nonce; the nonce is the least one, from 0 up, whose digest meets the
    difficulty, and the returned hash is that digest. The search took one
    turn of the loop for each nonce it passed, and more fuel gives the same
    result. *)
Theorem proof_of_work_returns_least (fuel : nat) (block mined : Block) (h : string) :
  proof_of_work fuel block = (Return h, mined) ->
  mined = set_nonce (nonce mined) block /\
  0 <= nonce mined /\
  h = hash_at block (nonce mined) /\
  meets_difficulty h = true /\
  (forall k, 0 <= k < nonce mined -> meets_difficulty (hash_at block k) = false) /\
  (Z.to_nat (nonce mined) <= fuel)%nat /\
  (forall fuel', (Z.to_nat (nonce mined) <= fuel')%nat ->
                 proof_of_work fuel' block = (Return h, mined)).
Proof.
  rewrite (proof_of_work_eq json_dumps sha256_hexdigest). intros Hrun.
  pose proof (proof_of_work_loop_returns json_dumps sha256_hexdigest
                _ _ _ _ Hrun) as (Hh & Hmeets & Hmined & Hle).
  pose proof (proof_of_work_loop_tried _ _ _ _ Hrun) as (Hfuel & Htried).
  simpl nonce in Hle, Hfuel, Htried.
  rewrite (set_nonce_twice) in Hmined.
  assert (Hhash : h = hash_at block (nonce mined)).
  { rewrite Hh. rewrite Hmined at 1. reflexivity. }
  assert (Hleast : forall k, 0 <= k < nonce mined ->
                             meets_difficulty (hash_at block k) = false).
  { intros k Hk.
    rewrite <- (hash_at_set_nonce json_dumps sha256_hexdigest k 0). now apply Htried. }
  repeat split; auto.
  - replace (nonce mined - 0) with (nonce mined) in Hfuel by lia. exact Hfuel.
  - intros fuel' Hfuel'.
    rewrite (proof_of_work_finds json_dumps sha256_hexdigest block (nonce mined) fuel');
      auto; [|now rewrite <- Hhash].
    now rewrite <- Hhash, <- Hmined.
Qed.

(** X5. As long as none of the nonces from 0 to [fuel] gives a digest that
    meets the difficulty, [proof_of_work] is still searching after [fuel]
    turns, with the nonce at [fuel]; an [add_block] that is mining such a
    block has not touched the chain. *)
Theorem proof_of_work_keeps_searching (fuel : nat) (block : Block) :
  (forall k, 0 <= k <= Z.of_nat fuel -> meets_difficulty (hash_at block k) = false) ->
  proof_of_work fuel block = (OutOfFuel, set_nonce (Z.of_nat fuel) block) /\
  forall (bc : Blockchain) (l : Block) (now : string) (payload : json),
    last (chain bc) = Some l ->
    block = Block_init (index l + 1) now payload (hash l) 0 ->
    add_block fuel now payload bc = (OutOfFuel, bc).
Proof.
  intros Hnone.
  assert (Hpow : proof_of_work fuel block = (OutOfFuel, set_nonce (Z.of_nat fuel) block)).
  { rewrite (proof_of_work_eq json_dumps sha256_hexdigest).
    rewrite (proof_of_work_loop_out_of_fuel json_dumps sha256_hexdigest).
    - now rewrite set_nonce_twice.
    - intros j Hj. simpl nonce.
      rewrite (hash_at_set_nonce json_dumps sha256_hexdigest). apply Hnone. lia. }
  split; [exact Hpow|].
  intros bc l now payload Hlast Hblock.
  rewrite (add_block_eq json_dumps sha256_hexdigest), Hlast, <- Hblock.
  now rewrite Hpow.
Qed.

(** ** Runs of [add_block] *)

Lemma add_blocks_cons (fuel : nat) (now : string) (payload : json)
      (rest : list (string * json)) (bc : Blockchain) :
  add_blocks fuel ((now, payload) :: rest) bc =
    match add_block fuel now payload bc with
    | (Return new_block, bc1) =>
        match add_blocks fuel rest bc1 with
        | (Return new_blocks, bc2) => (Return (new_block :: new_blocks), bc2)
        | (Raise e, bc2) => (Raise e, bc2)
        | (OutOfFuel, bc2) => (OutOfFuel, bc2)
        end
    | (Raise e, bc1) => (Raise e, bc1)
    | (OutOfFuel, bc1) => (OutOfFuel, bc1)
    end.
Proof.
  simpl. unfold bind at 1.
  destruct (add_block fuel now payload bc) as [[nb| |] bc1]; reflexivity.
Qed.

Lemma add_blocks_reachable (fuel : nat) (inputs : list (string * json)) :
  forall (bc bc' : Blockchain) (c : completion (list Block)),
    add_blocks fuel inputs bc = (c, bc') -> reachable bc -> reachable bc'.
Proof.
  induction inputs as [|[now payload] rest IH]; intros bc bc' c.
  - now intros [= _ <-].
  - rewrite add_blocks_cons.
    destruct (add_block fuel now payload bc) as [[nb| |] bc1] eqn:Hadd.
    + destruct (add_blocks fuel rest bc1) as [[nbs| |] bc2] eqn:Hrest;
        intros [= _ <-] Hreach;
        apply (IH _ _ _ Hrest);
        exact (reachable_add_block json_dumps sha256_hexdigest
                 _ _ _ _ _ _ Hreach Hadd).
    + apply add_block_stops_unchanged in Hadd as [(nb & [=]) | ->].
      now intros [= _ <-].
    + apply add_block_stops_unchanged in Hadd as [(nb & [=]) | ->].
      now intros [= _ <-].
Qed.

(** The blocks that a run has added, whether it went through or stopped on
    the way: they follow the old chain and carry the first payloads and
    clock readings, in order. *)
Lemma add_blocks_added (fuel : nat) (inputs : list (string * json)) :
  forall (bc bc' : Blockchain) (c : completion (list Block)),
    add_blocks fuel inputs bc = (c, bc') ->
    exists added,
      chain bc' = (chain bc ++ added)%list /\
      map data added = map snd (take (length added) inputs) /\
      map timestamp added = map fst (take (length added) inputs) /\
      match c with
      | Return new_blocks => new_blocks = added /\ length added = length inputs
      | _ => (length added < length inputs)%nat
      end.
Proof.
  induction inputs as [|[now payload] rest IH]; intros bc bc' c.
  - intros [= <- <-]. exists []. now rewrite app_nil_r.
  - rewrite add_blocks_cons.
    destruct (add_block fuel now payload bc) as [[nb| |] bc1] eqn:Hadd.
    + apply (add_block_returns json_dumps sha256_hexdigest) in Hadd
        as (l & _ & Hchain & _ & Hts & Hdata & _).
      destruct (add_blocks fuel rest bc1) as [c1 bc2] eqn:Hrest.
      destruct (IH _ _ _ Hrest) as (added & Hadded & Hd & Ht & Hc).
      intros Hres. exists (nb :: added).
      assert (Hbc' : bc' = bc2) by (destruct c1; now injection Hres).
      subst bc'. rewrite Hadded, Hchain, <- app_assoc. cbn.
      rewrite Hd, Ht, Hts, Hdata. repeat split; auto.
      destruct c1 as [nbs| |]; injection Hres as <-; cbn; try lia.
      destruct Hc as (-> & ->). auto.
    + apply add_block_stops_unchanged in Hadd as [(nb & [=]) | ->].
      intros [= <- <-]. exists []. rewrite app_nil_r. cbn. repeat split; auto. lia.
    + apply add_block_stops_unchanged in Hadd as [(nb & [=]) | ->].
      intros [= <- <-]. exists []. rewrite app_nil_r. cbn. repeat split; auto. lia.
Qed.

(** X6. The ledger is append-only. Whatever a run of [add_block] calls does
    (every call returns, or one runs out of fuel on the way), the chain
    before the run is a prefix of the chain after it; the blocks added carry
    the payloads and clock readings of the first calls in order, and when
    the run returns they are the blocks returned, one for each call. *)
Theorem chain_append_only (fuel : nat) (inputs : list (string * json))
        (bc : Blockchain) :
  exists added,
    chain (snd (add_blocks fuel inputs bc)) = (chain bc ++ added)%list /\
    map data added = map snd (take (length added) inputs) /\
    map timestamp added = map fst (take (length added) inputs) /\
    match fst (add_blocks fuel inputs bc) with
    | Return new_blocks => new_blocks = added /\ length added = length inputs
    | _ => (length added < length inputs)%nat
    end.
Proof.
  destruct (add_blocks fuel inputs bc) as [c bc'] eqn:Hrun.
  exact (add_blocks_added fuel inputs bc bc' c Hrun).
Qed.

(** X7. The dashboard lists what was submitted. On a ledger built by
    [Blockchain()] and a run of [add_block] calls that all return, the
    project list of [run_dashboard] is the list of the payloads passed to
    [add_block], in the order of the calls; the genesis payload is not in
    it, and the chain has one block more than the list has projects. *)
Theorem projects_are_payloads (fuel : nat) (now : string)
        (inputs : list (string * json)) (new_blocks : list Block)
        (bc : Blockchain) :
  add_blocks fuel inputs (Blockchain_init now) = (Return new_blocks, bc) ->
  projects bc = map snd inputs /\
  length (chain bc) = S (length (projects bc)) /\
  reachable bc.
Proof.
  intros Hrun.
  pose proof (add_blocks_reachable _ _ _ _ _ Hrun
                (reachable_init json_dumps sha256_hexdigest now)) as Hreach.
  apply add_blocks_added in Hrun as (added & Hchain & Hdata & _ & _ & Hlen).
  rewrite Hlen, firstn_all in Hdata.
  unfold projects. rewrite Hchain. cbn. rewrite drop_0.
  repeat split; auto. now rewrite length_map.
Qed.

End LedgerStructure.

(** * More properties of the token ledger *)

Section TokenAccounting.

Implicit Types (t : BlueCarbonToken) (ops : list token_op).

Lemma exec_ops_cons o ops t : exec_ops (o :: ops) t = exec_ops ops (exec_op o t).
Proof. reflexivity. Qed.

(** X8. The three ways a [transfer] ends. It returns [True] exactly when the
    sender has an entry that covers the amount; it returns [False], with the
    ledger as it was, exactly when the sender's balance (0 without an entry)
    is below the amount; it raises [KeyError] for the sender, with the
    ledger as it was, exactly when the sender has no entry and the amount is
    0 or less. *)
Theorem transfer_outcomes t (sender receiver : string) (amount : Z) :
  match transfer sender receiver amount t with
  | (Return true, t') =>
      exists balance,
        balances t !! sender = Some balance /\ balance >= amount /\
        t' = set_balances
               (<[receiver := dict_get (<[sender := balance - amount]> (balances t))
                                       receiver 0 + amount]>
                  (<[sender := balance - amount]> (balances t))) t
  | (Return false, t') => dict_get (balances t) sender 0 < amount /\ t' = t
  | (Raise e, t') =>
      e = KeyError sender /\ balances t !! sender = None /\ amount <= 0 /\ t' = t
  | (OutOfFuel, _) => False
  end.
Proof.
  rewrite transfer_eq.
  destruct (balances t !! sender) as [balance|] eqn:Hsender.
  - assert (Hget : dict_get (balances t) sender 0 = balance)
      by (unfold dict_get; now rewrite Hsender).
    rewrite Hget. destruct (Z.geb_spec balance amount).
    + exists balance. repeat split; auto. lia.
    + split; [lia|reflexivity].
  - assert (Hget : dict_get (balances t) sender 0 = 0)
      by (unfold dict_get; now rewrite Hsender).
    rewrite Hget. destruct (Z.geb_spec 0 amount).
    + repeat split; auto.
    + split; [lia|reflexivity].
Qed.

(** ** What was issued *)

(** X9. From a fresh [BlueCarbonToken], after every sequence of [issue] and
    [transfer] calls, [total_supply] is the sum of the amounts of the
    [issue] calls: no transfer, whether it succeeds, fails or raises, moves
    it. *)
Theorem total_supply_is_total_issued (name symbol : string) ops :
  total_supply (exec_ops ops (BlueCarbonToken_init name symbol)) = total_issued ops.
Proof.
  assert (Hgen : forall t, total_supply (exec_ops ops t)
                           = total_supply t + total_issued ops).
  { induction ops as [|[user amount | sender receiver amount] ops IH]; intros t;
      [simpl; lia | rewrite exec_ops_cons, IH ..].
    - simpl. lia.
    - change (exec_op (Transfer sender receiver amount) t)
        with (snd (transfer sender receiver amount t)).
      rewrite transfer_total_supply. reflexivity. }
  rewrite Hgen. reflexivity.
Qed.

Lemma issue_dict_get user amount who t :
  dict_get (balances (snd (issue user amount t))) who 0 =
    dict_get (balances t) who 0 + (if String.eqb user who then amount else 0).
Proof.
  rewrite issue_eq. cbn [snd balances].
  destruct (String.eqb_spec user who) as [->|Hne].
  - now rewrite dict_get_setitem_eq.
  - rewrite dict_get_setitem_ne by assumption. lia.
Qed.

Lemma transfer_other_entry sender receiver amount who t :
  sender <> who -> receiver <> who ->
  balances (snd (transfer sender receiver amount t)) !! who = balances t !! who.
Proof.
  intros Hs Hr. rewrite transfer_eq.
  destruct (dict_get (balances t) sender 0 >=? amount); [|reflexivity].
  destruct (balances t !! sender) as [old|]; [|reflexivity].
  cbn [snd balances set_balances]. now rewrite !lookup_insert_ne.
Qed.

(** X10. A user that no [transfer] call of a sequence names as sender or as
    receiver ends with the balance it had plus the sum of the amounts issued
    to it; starting from a fresh ledger, with the sum of the amounts issued
    to it. *)
Theorem balance_is_issued_to (user : string) ops t :
  in_transfers user ops = false ->
  dict_get (balances (exec_ops ops t)) user 0 =
    dict_get (balances t) user 0 + issued_to user ops /\
  forall (name symbol : string),
    dict_get (balances (exec_ops ops (BlueCarbonToken_init name symbol))) user 0 =
      issued_to user ops.
Proof.
  intros Hfree.
  assert (Hgen : forall t0, dict_get (balances (exec_ops ops t0)) user 0
                            = dict_get (balances t0) user 0 + issued_to user ops).
  { clear t. induction ops as [|[u amount | sender receiver amount] ops IH];
      intros t0; [simpl; lia | rewrite exec_ops_cons, IH ..].
    - change (exec_op (Issue u amount) t0) with (snd (issue u amount t0)).
      rewrite issue_dict_get. simpl. lia.
    - exact Hfree.
    - simpl in Hfree. apply orb_false_iff in Hfree as (Hnames & _).
      apply orb_false_iff in Hnames as (Hs & Hr).
      apply String.eqb_neq in Hs, Hr.
      change (exec_op (Transfer sender receiver amount) t0)
        with (snd (transfer sender receiver amount t0)).
      unfold dict_get at 1.
      rewrite transfer_other_entry by assumption. reflexivity.
    - simpl in Hfree. now apply orb_false_iff in Hfree as (_ & Hrest). }
  split; [apply Hgen|].
  intros name symbol. rewrite Hgen. reflexivity.
Qed.

(** ** Entries *)

Lemma exec_op_keeps_entries o t : dom (balances t) ⊆ dom (balances (exec_op o t)).
Proof.
  destruct o as [user amount | sender receiver amount]; cbn [exec_op].
  - rewrite issue_eq. cbn [snd balances]. rewrite dom_insert_L. set_solver.
  - rewrite transfer_eq.
    destruct (dict_get (balances t) sender 0 >=? amount); [|reflexivity].
    destruct (balances t !! sender) as [old|]; [|reflexivity].
    cbn [snd balances set_balances]. rewrite !dom_insert_L. set_solver.
Qed.

(** X11. No call removes an entry of [balances]: a user that has an entry
    keeps one through every sequence of [issue] and [transfer] calls, also
    when a transfer has taken the whole balance, which leaves an entry
    of 0. *)
Theorem entries_persist ops t (user : string) :
  is_Some (balances t !! user) ->
  is_Some (balances (exec_ops ops t) !! user) /\
  forall (receiver : string) (balance : Z),
    user <> receiver ->
    balances t !! user = Some balance ->
    balances (snd (transfer user receiver balance t)) !! user = Some 0.
Proof.
  intros Huser. split.
  - apply elem_of_dom. apply elem_of_dom in Huser.
    revert t Huser. induction ops as [|o ops IH]; intros t Huser; [exact Huser|].
    rewrite exec_ops_cons. apply IH. now apply exec_op_keeps_entries.
  - intros receiver balance Hne Hbalance.
    rewrite (transfer_covered _ _ _ _ _ Hbalance) by lia.
    cbn [snd balances set_balances].
    rewrite lookup_insert_ne by congruence. rewrite lookup_insert_eq.
    f_equal. lia.
Qed.

(** ** Transfers compose *)

(** X12. A transfer and the transfer back. When the sender's entry covers the
    amount and the receiver's balance is not negative, both transfers return
    [True], every balance (0 for a user without an entry) and
    [total_supply] are as before, and so is the whole ledger when the
    receiver had an entry from the start. *)
Theorem transfer_there_and_back t (sender receiver : string) (amount balance : Z) :
  sender <> receiver ->
  balances t !! sender = Some balance ->
  balance >= amount ->
  dict_get (balances t) receiver 0 >= 0 ->
  exists t1 t2,
    transfer sender receiver amount t = (Return true, t1) /\
    transfer receiver sender amount t1 = (Return true, t2) /\
    (forall user, dict_get (balances t2) user 0 = dict_get (balances t) user 0) /\
    total_supply t2 = total_supply t /\
    (is_Some (balances t !! receiver) -> t2 = t).
Proof.
  intros Hne Hsender Hcover Hreceiver.
  eexists. eexists.
  split; [apply (transfer_covered _ _ _ _ _ Hsender Hcover)|].
  rewrite dict_get_setitem_ne by assumption.
  set (r := dict_get (balances t) receiver 0) in *.
  split.
  { rewrite (transfer_covered _ _ _ _ (r + amount)); [reflexivity | | lia].
    cbn [balances set_balances]. apply lookup_insert_eq. }
  cbn [balances set_balances total_supply].
  rewrite insert_insert_eq.
  rewrite dict_get_setitem_ne by congruence. rewrite dict_get_setitem_eq.
  fold r. replace (r + amount - amount) with r by lia.
  replace (balance - amount + amount) with balance by lia.
  assert (Hmap : <[sender := balance]> (<[receiver := r]> (<[sender := balance - amount]>
                    (balances t))) = <[receiver := r]> (balances t)).
  { rewrite (insert_insert_ne _ sender receiver) by assumption.
    rewrite insert_insert_eq. now rewrite (insert_id _ sender balance). }
  rewrite Hmap. repeat split.
  - intros user. destruct (decide (receiver = user)) as [<-|Hu].
    + now rewrite dict_get_setitem_eq.
    + now rewrite dict_get_setitem_ne.
  - intros (old & Hold). unfold r, dict_get. rewrite Hold.
    rewrite insert_id by assumption. now destruct t.
Qed.

(** X13. Two transfers in a row from a sender to another user do what one
    transfer of the sum does. When the sender's entry covers the first
    amount and what is left covers the second, both return [True], as does
    the one transfer of the sum, and the ledgers they leave are equal. *)
Theorem transfer_twice t (sender receiver : string) (x y balance : Z) :
  sender <> receiver ->
  balances t !! sender = Some balance ->
  balance >= x ->
  balance - x >= y ->
  exists t1 t2,
    transfer sender receiver x t = (Return true, t1) /\
    transfer sender receiver y t1 = (Return true, t2) /\
    transfer sender receiver (x + y) t = (Return true, t2).
Proof.
  intros Hne Hsender Hx Hy.
  eexists. eexists.
  split; [apply (transfer_covered _ _ _ _ _ Hsender Hx)|].
  rewrite dict_get_setitem_ne by assumption.
  set (r := dict_get (balances t) receiver 0).
  split.
  - rewrite (transfer_covered _ _ _ _ (balance - x)); [reflexivity | | lia].
    cbn [balances set_balances].
    rewrite lookup_insert_ne by congruence. apply lookup_insert_eq.
  - rewrite (transfer_covered _ _ _ _ balance) by (auto; lia).
    rewrite dict_get_setitem_ne by assumption. fold r.
    unfold set_balances. cbn [name symbol balances total_supply].
    f_equal. f_equal.
    rewrite (dict_get_setitem_ne _ sender receiver) by assumption.
    rewrite dict_get_setitem_eq.
    apply map_eq. intros user. rewrite !lookup_insert.
    repeat case_decide; try reflexivity; f_equal; lia.
Qed.

End TokenAccounting.

(** * The script: ledger and tokens together *)

Section IngestionProperties.

Variable json_dumps : json -> string.
Variable sha256_hexdigest : string -> string.

Local Abbreviation add_block := (add_block json_dumps sha256_hexdigest).
Local Abbreviation reachable := (reachable json_dumps sha256_hexdigest).
Local Abbreviation ingest := (ingest json_dumps sha256_hexdigest).
Local Abbreviation ingest_all := (ingest_all json_dumps sha256_hexdigest).

(** [ingest], statement by statement *)
Lemma ingest_eq (fuel : nat) (now : string) (entry : list (string * json))
      (r : Registry) :
  ingest fuel now entry r =
    match add_block fuel now (JDict entry) (carbon_chain r) with
    | (Return block, bc') =>
        match dict_lookup entry "submitted_by" with
        | None =>
            Some (Raise (KeyError "submitted_by"), mkRegistry bc' (token_system r))
        | Some user =>
            match dict_lookup entry "CO2_absorbed_tonnes" with
            | None =>
                Some (Raise (KeyError "CO2_absorbed_tonnes"),
                      mkRegistry bc' (token_system r))
            | Some amount =>
                match user, amount with
                | JStr user, JInt amount =>
                    Some (Return block,
                          mkRegistry bc' (snd (issue user amount (token_system r))))
                | _, _ => None
                end
            end
        end
    | (Raise e, bc') => Some (Raise e, mkRegistry bc' (token_system r))
    | (OutOfFuel, bc') => Some (OutOfFuel, mkRegistry bc' (token_system r))
    end.
Proof.
  unfold ingest, ingest_arguments, on_carbon_chain, bind at 1.
  destruct (add_block fuel now (JDict entry) (carbon_chain r)) as [[block| |] bc'];
    try reflexivity.
  unfold entry_getitem, bind, ret, raise.
  destruct (dict_lookup entry "submitted_by") as [user|]; [|reflexivity].
  destruct (dict_lookup entry "CO2_absorbed_tonnes") as [amount|]; [|reflexivity].
  destruct user; reflexivity.
Qed.

(** X14. One turn of the loop on an entry that holds a [str] submitter and
    an [int] amount. Either [add_block] returns a block: the chain has grown
    by it, it carries the entry as its payload, and the submitter has been
    issued the amount; or [add_block] does not return: nothing was appended
    and nothing was issued. *)
Theorem ingest_block_then_tokens (fuel : nat) (now : string)
        (entry : list (string * json)) (user : string) (amount : Z) (r : Registry) :
  submission entry = Some (user, amount) ->
  exists c r',
    ingest fuel now entry r = Some (c, r') /\
    match c with
    | Return block =>
        chain (carbon_chain r') = (chain (carbon_chain r) ++ [block])%list /\
        data block = JDict entry /\
        token_system r' = exec_op (Issue user amount) (token_system r)
    | _ => r' = r
    end.
Proof.
  unfold submission. intros Hsub. rewrite ingest_eq.
  destruct (dict_lookup entry "submitted_by") as [[| | |u| |]|]; try discriminate.
  destruct (dict_lookup entry "CO2_absorbed_tonnes") as [[| |a| | |]|];
    try discriminate.
  injection Hsub as -> ->.
  destruct (add_block fuel now (JDict entry) (carbon_chain r)) as [[block| |] bc']
    eqn:Hadd.
  - apply (add_block_returns json_dumps sha256_hexdigest) in Hadd
      as (l & _ & Hchain & _ & _ & Hdata & _).
    eexists. eexists. split; [reflexivity|]. cbn. auto.
  - apply (add_block_stops_unchanged json_dumps sha256_hexdigest) in Hadd
      as [(nb & [=]) | ->].
    eexists. eexists. split; [reflexivity|]. now destruct r.
  - apply (add_block_stops_unchanged json_dumps sha256_hexdigest) in Hadd
      as [(nb & [=]) | ->].
    eexists. eexists. split; [reflexivity|]. now destruct r.
Qed.

(** X15. No rollback. When an entry lacks the key [submitted_by], or has it
    and lacks [CO2_absorbed_tonnes], and [add_block] returns, the turn of the
    loop ends in a [KeyError] for the missing key with the new block in the
    chain and the tokens as they were. *)
Theorem ingest_missing_key (fuel : nat) (now : string)
        (entry : list (string * json)) (key : string) (r : Registry)
        (block : Block) (bc' : Blockchain) :
  (dict_lookup entry "submitted_by" = None /\ key = "submitted_by") \/
  (is_Some (dict_lookup entry "submitted_by") /\
   dict_lookup entry "CO2_absorbed_tonnes" = None /\ key = "CO2_absorbed_tonnes") ->
  add_block fuel now (JDict entry) (carbon_chain r) = (Return block, bc') ->
  ingest fuel now entry r =
    Some (Raise (KeyError key), mkRegistry bc' (token_system r)) /\
  chain bc' = (chain (carbon_chain r) ++ [block])%list /\
  data block = JDict entry.
Proof.
  intros Hmissing Hadd. rewrite ingest_eq, Hadd.
  apply (add_block_returns json_dumps sha256_hexdigest) in Hadd
    as (l & _ & Hchain & _ & _ & Hdata & _).
  destruct Hmissing as [(-> & ->) | ((user & ->) & -> & ->)]; auto.
Qed.

Lemma ingest_all_cons (fuel : nat) (now : string) (entry : list (string * json))
      (rest : list (string * list (string * json))) (r : Registry) :
  ingest_all fuel ((now, entry) :: rest) r =
    match ingest fuel now entry r with
    | Some (Return block, r') =>
        match ingest_all fuel rest r' with
        | Some (Return blocks, r'') => Some (Return (block :: blocks), r'')
        | other => other
        end
    | Some (Raise e, r') => Some (Raise e, r')
    | Some (OutOfFuel, r') => Some (OutOfFuel, r')
    | None => None
    end.
Proof. reflexivity. Qed.

(** An entry whose turn returns is well typed, and the turn did both
    things. *)
Lemma ingest_returns (fuel : nat) (now : string) (entry : list (string * json))
      (r r' : Registry) (block : Block) :
  ingest fuel now entry r = Some (Return block, r') ->
  exists s,
    submission entry = Some s /\
    add_block fuel now (JDict entry) (carbon_chain r) = (Return block, carbon_chain r') /\
    token_system r' = exec_op (issue_of s) (token_system r).
Proof.
  rewrite ingest_eq. unfold submission.
  destruct (add_block fuel now (JDict entry) (carbon_chain r)) as [[nb| |] bc'];
    try discriminate.
  destruct (dict_lookup entry "submitted_by") as [[| | |u| |]|]; try discriminate;
    destruct (dict_lookup entry "CO2_absorbed_tonnes") as [[| |a| | |]|];
    try discriminate.
  intros [= <- <-]. exists (u, a). auto.
Qed.

(** X16. A whole run of the loop that returns. The chain has grown by the
    returned blocks, one for each entry, each with its entry as payload, in
    order; the tokens are what the [issue] calls of the entries leave, in
    the same order, so [total_supply] has grown by the sum of the amounts;
    and a reachable chain with a ledger whose supply matches its balances
    stay so. *)
Theorem ingest_all_returns (fuel : nat)
        (inputs : list (string * list (string * json)))
        (r r' : Registry) (blocks : list Block) :
  ingest_all fuel inputs r = Some (Return blocks, r') ->
  exists subs,
    map (fun i => submission (snd i)) inputs = map Some subs /\
    chain (carbon_chain r') = (chain (carbon_chain r) ++ blocks)%list /\
    map data blocks = map (fun i => JDict (snd i)) inputs /\
    token_system r' = exec_ops (map issue_of subs) (token_system r) /\
    total_supply (token_system r') =
      total_supply (token_system r) + total_issued (map issue_of subs) /\
    (reachable (carbon_chain r) -> reachable (carbon_chain r')) /\
    (supply_matches (token_system r) -> supply_matches (token_system r')).
Proof.
  revert r r' blocks.
  induction inputs as [|[now entry] rest IH]; intros r r' blocks.
  - intros [= <- <-]. exists []. rewrite app_nil_r. cbn. repeat split; auto. lia.
  - rewrite ingest_all_cons.
    destruct (ingest fuel now entry r) as [[[block| |] r1]|] eqn:Hturn;
      try discriminate.
    destruct (ingest_all fuel rest r1) as [[[bs| |] r2]|] eqn:Hrest;
      try discriminate.
    intros [= <- <-].
    apply ingest_returns in Hturn as (s & Hsub & Hadd & Htok).
    destruct (IH _ _ _ Hrest)
      as (subs & Hsubs & Hchain & Hdata & Htoks & Hsupply & Hreach & Hmatch).
    exists (s :: subs).
    pose proof Hadd as Hreach1.
    apply (add_block_returns json_dumps sha256_hexdigest) in Hadd
      as (l & _ & Hchain1 & _ & _ & Hdata1 & _).
    cbn [map snd]. rewrite Hsub, Hsubs, Hchain, Hchain1, <- app_assoc, Hdata, Hdata1.
    rewrite Hsupply, Htoks, Htok.
    repeat split; auto.
    + cbn [total_issued issue_of exec_op]. destruct s as [u a]. cbn [fst snd].
      rewrite issue_eq. cbn. lia.
    + intros Hr. apply Hreach.
      exact (reachable_add_block json_dumps sha256_hexdigest
               _ _ _ _ _ _ Hr Hreach1).
    + intros Hm. rewrite <- Htok, <- Htoks. apply Hmatch. rewrite Htok.
      now apply exec_op_supply_matches.
Qed.

End IngestionProperties.

(** * The digest as the program computes it *)

Section Digest.

Lemma string_length_append (a b : string) :
  String.length (String.append a b) = (String.length a + String.length b)%nat.
Proof. induction a as [|c a IH]; simpl; [reflexivity | now rewrite IH]. Qed.

Lemma hex_length (n : nat) (x : Z) : String.length (Hashlib.hex n x) = n.
Proof. induction n as [|n IH]; simpl; [reflexivity | now rewrite IH]. Qed.

Lemma compress_length (h block : list Z) :
  length h = 8%nat -> length (Hashlib.compress h block) = 8%nat.
Proof.
  intros Hh. unfold Hashlib.compress. cbv zeta.
  rewrite length_map, length_combine, Hh. reflexivity.
Qed.

Lemma blocks_length (fuel : nat) :
  forall (h ws : list Z), length h = 8%nat -> length (Hashlib.blocks fuel h ws) = 8%nat.
Proof.
  induction fuel as [|fuel IH]; intros h ws Hh; [exact Hh|].
  destruct ws as [|w ws]; [exact Hh|].
  cbn [Hashlib.blocks]. apply IH. now apply compress_length.
Qed.

Lemma sha256_hexdigest_length (s : string) :
  String.length (Hashlib.sha256_hexdigest s) = 64%nat.
Proof.
  unfold Hashlib.sha256_hexdigest.
  assert (Hwords : length (Hashlib.sha256 (Hashlib.encode s)) = 8%nat)
    by (apply blocks_length; reflexivity).
  revert Hwords. generalize (Hashlib.sha256 (Hashlib.encode s)). intros ws.
  assert (Hgen : String.length
                   (fold_right (fun w acc => String.append (Hashlib.hex 8 w) acc)
                               EmptyString ws) = (8 * length ws)%nat).
  { induction ws as [|w ws IH]; [reflexivity|].
    cbn [fold_right length]. rewrite string_length_append, hex_length, IH. lia. }
  intros Hws. rewrite Hgen, Hws. reflexivity.
Qed.

(** X17. With SHA-256 every hash in the ledger has 64 characters, so none
    is the one-character [previous_hash] of the genesis block: in a
    reachable ledger the block at position 0 is the only one whose
    [previous_hash] is "0". *)
Theorem previous_hash_sentinel (bc : Blockchain) :
  run_reachable bc ->
  forall (i : nat) (b : Block),
    chain bc !! i = Some b ->
    String.length (hash b) = 64%nat /\
    (previous_hash b = "0" <-> i = 0%nat).
Proof.
  intros Hreach i b Hb.
  assert (Hlen : forall j c, chain bc !! j = Some c -> String.length (hash c) = 64%nat).
  { intros j c Hc.
    rewrite (reachable_stored_hash Json.dumps Hashlib.sha256_hexdigest bc Hreach j c Hc).
    apply sha256_hexdigest_length. }
  split; [exact (Hlen i b Hb)|].
  destruct i as [|i].
  - split; [reflexivity|]. intros _.
    destruct (reachable_genesis Json.dumps Hashlib.sha256_hexdigest bc Hreach)
      as (now & rest & Hchain).
    rewrite Hchain in Hb. now injection Hb as <-.
  - split; [|discriminate]. intros Hzero. exfalso.
    destruct (chain bc !! i) as [prev|] eqn:Hprev.
    + pose proof (reachable_previous_hash Json.dumps Hashlib.sha256_hexdigest
                    bc Hreach i b prev Hb Hprev) as Hlink.
      pose proof (Hlen i prev Hprev) as Hprevlen.
      rewrite <- Hlink, Hzero in Hprevlen. discriminate.
    + apply lookup_ge_None in Hprev. apply lookup_lt_Some in Hb. lia.
Qed.

(** ** The order of the keys of a payload *)

Lemma string_leb_trans (s1 : string) :
  forall s2 s3,
    String.leb s1 s2 = true -> String.leb s2 s3 = true -> String.leb s1 s3 = true.
Proof.
  unfold String.leb.
  induction s1 as [|a s1 IH]; intros [|b s2] [|c s3]; simpl; try easy.
  unfold Ascii.compare.
  destruct (N.compare_spec (N_of_ascii a) (N_of_ascii b));
    destruct (N.compare_spec (N_of_ascii b) (N_of_ascii c));
    destruct (N.compare_spec (N_of_ascii a) (N_of_ascii c));
    try easy; try lia.
  apply IH.
Qed.

#[local] Instance key_le_transitive : Transitive key_le.
Proof. intros x y z. unfold key_le. apply string_leb_trans. Qed.

Lemma insert_item_permutation (kv : string * string) (l : list (string * string)) :
  Json.insert_item kv l ≡ₚ kv :: l.
Proof.
  induction l as [|x xs IH]; simpl; [reflexivity|].
  destruct (String.leb (fst x) (fst kv)); [|reflexivity].
  rewrite IH. apply Permutation_swap.
Qed.

Lemma insert_item_hd (kv x : string * string) (xs : list (string * string)) :
  key_le x kv -> HdRel key_le x xs -> HdRel key_le x (Json.insert_item kv xs).
Proof.
  intros Hkv Hhd. destruct xs as [|y ys]; simpl; [now constructor|].
  destruct (String.leb (fst y) (fst kv)); constructor; auto.
  now inversion Hhd.
Qed.

Lemma insert_item_sorted (kv : string * string) (l : list (string * string)) :
  Sorted key_le l -> Sorted key_le (Json.insert_item kv l).
Proof.
  induction 1 as [|x xs Hsorted IH Hhd]; simpl.
  - repeat constructor.
  - destruct (String.leb (fst x) (fst kv)) eqn:Hle.
    + constructor; [exact IH|]. now apply insert_item_hd.
    + constructor; [now constructor|]. constructor. unfold key_le.
      destruct (String.leb_total (fst x) (fst kv)); congruence.
Qed.

Lemma sort_items_spec (l : list (string * string)) :
  Sorted key_le (Json.sort_items l) /\ Json.sort_items l ≡ₚ l.
Proof.
  unfold Json.sort_items.
  assert (Hgen : forall acc,
             Sorted key_le acc ->
             Sorted key_le (fold_left (fun acc kv => Json.insert_item kv acc) l acc) /\
             fold_left (fun acc kv => Json.insert_item kv acc) l acc ≡ₚ (l ++ acc)%list).
  { induction l as [|kv l IH]; intros acc Hacc; simpl; [split; auto|].
    destruct (IH (Json.insert_item kv acc) (insert_item_sorted kv acc Hacc))
      as (Hsorted & Hperm).
    split; [exact Hsorted|].
    rewrite Hperm, insert_item_permutation. symmetry. apply Permutation_middle. }
  destruct (Hgen [] (Sorted_nil _)) as (Hsorted & Hperm).
  split; [exact Hsorted|]. now rewrite Hperm, app_nil_r.
Qed.

Lemma unique_keys_eq (l : list (string * string)) (x y : string * string) :
  NoDup (map fst l) -> x ∈ l -> y ∈ l -> fst x = fst y -> x = y.
Proof.
  induction l as [|z l IH]; intros Hnodup Hx Hy Hkey; [now apply elem_of_nil in Hx|].
  cbn in Hnodup. apply NoDup_cons in Hnodup as (Hfresh & Hnodup).
  apply elem_of_cons in Hx as [->|Hx]; apply elem_of_cons in Hy as [->|Hy]; auto.
  - exfalso. apply Hfresh. rewrite Hkey. apply list_elem_of_fmap. eauto.
  - exfalso. apply Hfresh. rewrite <- Hkey. apply list_elem_of_fmap. eauto.
Qed.

Lemma sort_items_permutation (l1 l2 : list (string * string)) :
  l1 ≡ₚ l2 -> NoDup (map fst l1) -> Json.sort_items l1 = Json.sort_items l2.
Proof.
  intros Hperm Hnodup.
  destruct (sort_items_spec l1) as (Hs1 & Hp1).
  destruct (sort_items_spec l2) as (Hs2 & Hp2).
  apply (Sorted_unique_strong key_le); auto.
  - intros x1 x2 Hx1 Hx2 H12 H21.
    apply (unique_keys_eq l1); auto.
    + now rewrite <- Hp1.
    + now rewrite Hperm, <- Hp2.
    + now apply String.leb_antisym.
  - now rewrite Hp1, Hp2.
Qed.

Lemma dumps_dict (d : list (string * json)) :
  Json.dumps (JDict d) =
    let items := map (fun kv => match kv with (k, v) => (k, Json.dumps v) end) d in
    let field kv :=
      String.append (Json.encode_str (fst kv)) (String.append ": " (snd kv)) in
    String.append "{"
      (String.append (Json.join ", " (map field (Json.sort_items items))) "}").
Proof. reflexivity. Qed.

Lemma dumps_dict_permutation (d1 d2 : list (string * json)) :
  d1 ≡ₚ d2 -> NoDup (map fst d1) -> Json.dumps (JDict d1) = Json.dumps (JDict d2).
Proof.
  intros Hperm Hnodup. rewrite !dumps_dict. cbv zeta.
  rewrite (sort_items_permutation
             (map (fun kv => match kv with (k, v) => (k, Json.dumps v) end) d1)
             (map (fun kv => match kv with (k, v) => (k, Json.dumps v) end) d2));
    [reflexivity | now apply Permutation_map |].
  assert (Hkeys : map fst (map (fun kv : string * json =>
                                  match kv with (k, v) => (k, Json.dumps v) end) d1)
                  = map fst d1).
  { clear. induction d1 as [|[k v] d1 IH]; [reflexivity|]. cbn [map fst]. now rewrite IH. }
  now rewrite Hkeys.
Qed.

(** X18. With [sort_keys=True] the digest of a block does not depend on the
    order in which the payload dict holds its items: two blocks that differ
    only in that order have the same [compute_hash]. *)
Theorem compute_hash_key_order (i n : Z) (ts ph h1 h2 : string)
        (d1 d2 : list (string * json)) :
  d1 ≡ₚ d2 ->
  NoDup (map fst d1) ->
  run_compute_hash (mkBlock i ts (JDict d1) ph n h1) =
    run_compute_hash (mkBlock i ts (JDict d2) ph n h2).
Proof.
  intros Hperm Hnodup. unfold compute_hash. cbv zeta.
  cbn [index timestamp data previous_hash nonce].
  rewrite dumps_dict. rewrite dumps_dict. cbv zeta. cbn [map].
  now rewrite (dumps_dict_permutation d1 d2 Hperm Hnodup).
Qed.

End Digest.

(** * The further theorems on the sample run *)

Lemma sample_blocks_added :
  run_add_blocks 3 sample_inputs (run_Blockchain_init "2025-01-01 12:00:00.000000") =
    (Return [sample_block1; sample_block2], sample_chain).
Proof. vm_compute. reflexivity. Qed.

Lemma sample_candidate_mined :
  run_proof_of_work 3 sample_candidate =
    (Return (hash sample_block1), set_nonce 3 sample_candidate).
Proof. vm_compute. reflexivity. Qed.

Lemma sample_candidate_tried (k : Z) :
  0 <= k <= Z.of_nat 2 ->
  meets_difficulty (run_hash_at sample_candidate k) = false.
Proof.
  intros Hk. assert (Hcases : k = 0 \/ k = 1 \/ k = 2) by lia.
  destruct Hcases as [-> | [-> | ->]]; vm_compute; reflexivity.
Qed.

Lemma index_is_position_sample :
  run_reachable sample_chain /\
  (forall (i : nat) (b : Block),
      chain sample_chain !! i = Some b -> index b = Z.of_nat i) /\
  (exists now,
      chain sample_chain !! 0%nat =
        Some (Block_init Json.dumps Hashlib.sha256_hexdigest
                         0 now (JStr "Genesis Block") "0" 0)) /\
  (forall (i : nat) (b : Block),
      chain sample_chain !! i = Some b -> index b = 0 -> i = 0%nat).
Proof.
  split; [exact sample_chain_reachable|].
  exact (index_is_position Json.dumps Hashlib.sha256_hexdigest
                           sample_chain sample_chain_reachable).
Defined.

Lemma previous_hash_recomputed_sample :
  run_reachable sample_chain /\
  (forall (i : nat) (b : Block),
      chain sample_chain !! i = Some b -> hash b = run_compute_hash b) /\
  (forall (i : nat) (b prev : Block),
      chain sample_chain !! S i = Some b -> chain sample_chain !! i = Some prev ->
      previous_hash b = run_compute_hash prev).
Proof.
  split; [exact sample_chain_reachable|].
  exact (previous_hash_recomputed Json.dumps Hashlib.sha256_hexdigest
                                  sample_chain sample_chain_reachable).
Defined.

Lemma proof_of_work_returns_least_sample :
  run_proof_of_work 3 sample_candidate =
    (Return (hash sample_block1), set_nonce 3 sample_candidate) /\
  nonce (set_nonce 3 sample_candidate) = 3 /\
  (forall k, 0 <= k < 3 -> meets_difficulty (run_hash_at sample_candidate k) = false) /\
  (forall fuel', (3 <= fuel')%nat ->
                 run_proof_of_work fuel' sample_candidate =
                   (Return (hash sample_block1), set_nonce 3 sample_candidate)).
Proof.
  split; [exact sample_candidate_mined|]. split; [reflexivity|].
  pose proof (proof_of_work_returns_least Json.dumps Hashlib.sha256_hexdigest
                3 sample_candidate (set_nonce 3 sample_candidate)
                (hash sample_block1) sample_candidate_mined)
    as (_ & _ & _ & _ & Hleast & _ & Hmore).
  split; [exact Hleast | exact Hmore].
Defined.

Lemma proof_of_work_keeps_searching_sample :
  (forall k, 0 <= k <= Z.of_nat 2 ->
             meets_difficulty (run_hash_at sample_candidate k) = false) /\
  run_proof_of_work 2 sample_candidate = (OutOfFuel, set_nonce 2 sample_candidate) /\
  run_add_block 2 "2025-01-01 12:00:01.000013" (nth 0 sample_data JNull)
                (mkBlockchain [sample_genesis]) =
    (OutOfFuel, mkBlockchain [sample_genesis]).
Proof.
  split; [exact sample_candidate_tried|].
  pose proof (proof_of_work_keeps_searching Json.dumps Hashlib.sha256_hexdigest
                2 sample_candidate sample_candidate_tried) as (Hpow & Hadd).
  split; [exact Hpow|].
  exact (Hadd (mkBlockchain [sample_genesis]) sample_genesis
              "2025-01-01 12:00:01.000013" (nth 0 sample_data JNull)
              eq_refl eq_refl).
Defined.

Lemma projects_are_payloads_sample :
  run_add_blocks 3 sample_inputs (run_Blockchain_init "2025-01-01 12:00:00.000000") =
    (Return [sample_block1; sample_block2], sample_chain) /\
  projects sample_chain = sample_data /\
  length (chain sample_chain) = S (length (projects sample_chain)) /\
  run_reachable sample_chain.
Proof.
  split; [exact sample_blocks_added|].
  exact (projects_are_payloads Json.dumps Hashlib.sha256_hexdigest 3
           "2025-01-01 12:00:00.000000" sample_inputs
           [sample_block1; sample_block2] sample_chain sample_blocks_added).
Defined.

Lemma balance_is_issued_to_sample :
  let ops := [Issue "NGO_1" 50; Transfer "Community_1" "NCCR_Admin" 10;
              Issue "Community_1" 30; Issue "NGO_1" 30] in
  in_transfers "NGO_1" ops = false /\
  issued_to "NGO_1" ops = 80 /\
  dict_get (balances (exec_ops ops sample_tokens)) "NGO_1" 0 =
    dict_get (balances sample_tokens) "NGO_1" 0 + issued_to "NGO_1" ops /\
  forall (name symbol : string),
    dict_get (balances (exec_ops ops (BlueCarbonToken_init name symbol))) "NGO_1" 0 =
      issued_to "NGO_1" ops.
Proof.
  cbv zeta. split; [reflexivity|]. split; [reflexivity|].
  apply (balance_is_issued_to "NGO_1"
           [Issue "NGO_1" 50; Transfer "Community_1" "NCCR_Admin" 10;
            Issue "Community_1" 30; Issue "NGO_1" 30] sample_tokens).
  reflexivity.
Defined.

Lemma entries_persist_sample :
  let ops := [Transfer "NGO_1" "Community_1" 80; Issue "NCCR_Admin" 5] in
  is_Some (balances sample_tokens !! "NGO_1") /\
  is_Some (balances (exec_ops ops sample_tokens) !! "NGO_1") /\
  forall (receiver : string) (balance : Z),
    "NGO_1" <> receiver ->
    balances sample_tokens !! "NGO_1" = Some balance ->
    balances (snd (transfer "NGO_1" receiver balance sample_tokens)) !! "NGO_1" = Some 0.
Proof.
  cbv zeta. split; [now exists 80|].
  apply (entries_persist [Transfer "NGO_1" "Community_1" 80; Issue "NCCR_Admin" 5]
                         sample_tokens "NGO_1").
  now exists 80.
Defined.

Lemma transfer_there_and_back_sample :
  "NGO_1" <> "Community_1" /\
  balances sample_tokens !! "NGO_1" = Some 80 /\
  80 >= 50 /\
  dict_get (balances sample_tokens) "Community_1" 0 >= 0 /\
  exists t1 t2,
    transfer "NGO_1" "Community_1" 50 sample_tokens = (Return true, t1) /\
    transfer "Community_1" "NGO_1" 50 t1 = (Return true, t2) /\
    (forall user, dict_get (balances t2) user 0 = dict_get (balances sample_tokens) user 0) /\
    total_supply t2 = total_supply sample_tokens /\
    (is_Some (balances sample_tokens !! "Community_1") -> t2 = sample_tokens).
Proof.
  split; [discriminate|]. split; [reflexivity|]. split; [lia|].
  split; [vm_compute; discriminate|].
  apply (transfer_there_and_back sample_tokens "NGO_1" "Community_1" 50 80);
    [discriminate | reflexivity | lia | vm_compute; discriminate].
Defined.

Lemma transfer_twice_sample :
  "NGO_1" <> "Community_1" /\
  balances sample_tokens !! "NGO_1" = Some 80 /\
  80 >= 50 /\
  80 - 50 >= 30 /\
  exists t1 t2,
    transfer "NGO_1" "Community_1" 50 sample_tokens = (Return true, t1) /\
    transfer "NGO_1" "Community_1" 30 t1 = (Return true, t2) /\
    transfer "NGO_1" "Community_1" (50 + 30) sample_tokens = (Return true, t2).
Proof.
  split; [discriminate|]. split; [reflexivity|]. split; [lia|]. split; [lia|].
  apply (transfer_twice sample_tokens "NGO_1" "Community_1" 50 30 80);
    [discriminate | reflexivity | lia | lia].
Defined.

Lemma ingest_block_then_tokens_sample :
  submission (sample_entry 0) = Some ("NGO_1", 50) /\
  exists c r',
    run_ingest 3 "2025-01-01 12:00:01.000013" (sample_entry 0) sample_registry
      = Some (c, r') /\
    match c with
    | Return block =>
        chain (carbon_chain r') = (chain (carbon_chain sample_registry) ++ [block])%list /\
        data block = JDict (sample_entry 0) /\
        token_system r' = exec_op (Issue "NGO_1" 50) (token_system sample_registry)
    | _ => r' = sample_registry
    end.
Proof.
  split; [reflexivity|].
  apply (ingest_block_then_tokens Json.dumps Hashlib.sha256_hexdigest 3
           "2025-01-01 12:00:01.000013" (sample_entry 0) "NGO_1" 50 sample_registry).
  reflexivity.
Defined.

Lemma sample_incomplete_added :
  run_add_block 1 "2025-01-01 12:00:01.000006" (JDict sample_incomplete_entry)
                (carbon_chain sample_registry) =
    (Return sample_incomplete_block,
     mkBlockchain [sample_genesis; sample_incomplete_block]).
Proof. vm_compute. reflexivity. Qed.

Lemma ingest_missing_key_sample :
  ((dict_lookup sample_incomplete_entry "submitted_by" = None /\
    "submitted_by" = "submitted_by") \/
   (is_Some (dict_lookup sample_incomplete_entry "submitted_by") /\
    dict_lookup sample_incomplete_entry "CO2_absorbed_tonnes" = None /\
    "submitted_by" = "CO2_absorbed_tonnes")) /\
  run_ingest 1 "2025-01-01 12:00:01.000006" sample_incomplete_entry sample_registry =
    Some (Raise (KeyError "submitted_by"),
          mkRegistry (mkBlockchain [sample_genesis; sample_incomplete_block])
                     (token_system sample_registry)) /\
  chain (mkBlockchain [sample_genesis; sample_incomplete_block]) =
    (chain (carbon_chain sample_registry) ++ [sample_incomplete_block])%list /\
  data sample_incomplete_block = JDict sample_incomplete_entry.
Proof.
  split; [left; split; reflexivity|].
  apply (ingest_missing_key Json.dumps Hashlib.sha256_hexdigest 1
           "2025-01-01 12:00:01.000006" sample_incomplete_entry "submitted_by"
           sample_registry sample_incomplete_block
           (mkBlockchain [sample_genesis; sample_incomplete_block]));
    [left; split; reflexivity | exact sample_incomplete_added].
Defined.

Lemma ingest_all_returns_sample :
  run_ingest_all 3 sample_entries sample_registry =
    Some (Return [sample_block1; sample_block2],
          mkRegistry sample_chain
                     (exec_ops [Issue "NGO_1" 50; Issue "Community_1" 30]
                               (token_system sample_registry))) /\
  exists subs,
    map (fun i => submission (snd i)) sample_entries = map Some subs /\
    chain sample_chain =
      (chain (carbon_chain sample_registry) ++ [sample_block1; sample_block2])%list /\
    map data [sample_block1; sample_block2] =
      map (fun i => JDict (snd i)) sample_entries /\
    exec_ops [Issue "NGO_1" 50; Issue "Community_1" 30] (token_system sample_registry) =
      exec_ops (map issue_of subs) (token_system sample_registry) /\
    total_supply (exec_ops [Issue "NGO_1" 50; Issue "Community_1" 30]
                           (token_system sample_registry)) =
      total_supply (token_system sample_registry) + total_issued (map issue_of subs) /\
    (run_reachable (carbon_chain sample_registry) -> run_reachable sample_chain) /\
    (supply_matches (token_system sample_registry) ->
     supply_matches (exec_ops [Issue "NGO_1" 50; Issue "Community_1" 30]
                              (token_system sample_registry))).
Proof.
  assert (Hrun : run_ingest_all 3 sample_entries sample_registry =
                   Some (Return [sample_block1; sample_block2],
                         mkRegistry sample_chain
                           (exec_ops [Issue "NGO_1" 50; Issue "Community_1" 30]
                                     (token_system sample_registry))))
    by (vm_compute; reflexivity).
  split; [exact Hrun|].
  exact (ingest_all_returns Json.dumps Hashlib.sha256_hexdigest 3 sample_entries
           sample_registry _ _ Hrun).
Defined.

Lemma previous_hash_sentinel_sample :
  run_reachable sample_chain /\
  chain sample_chain !! 1%nat = Some sample_block1 /\
  String.length (hash sample_block1) = 64%nat /\
  (previous_hash sample_block1 = "0" <-> 1%nat = 0%nat).
Proof.
  split; [exact sample_chain_reachable|]. split; [reflexivity|].
  exact (previous_hash_sentinel sample_chain sample_chain_reachable
                                1 sample_block1 eq_refl).
Defined.

Lemma sample_entry_keys : NoDup (map fst (sample_entry 0)).
Proof. apply (bool_decide_unpack (NoDup (map fst (sample_entry 0)))). vm_compute. exact I. Qed.

Lemma compute_hash_key_order_sample :
  sample_entry 0 ≡ₚ rev (sample_entry 0) /\
  NoDup (map fst (sample_entry 0)) /\
  run_compute_hash (mkBlock 1 "2025-01-01 12:00:01.000013" (JDict (sample_entry 0))
                            (hash sample_genesis) 3 EmptyString) =
    run_compute_hash (mkBlock 1 "2025-01-01 12:00:01.000013"
                              (JDict (rev (sample_entry 0)))
                              (hash sample_genesis) 3 EmptyString).
Proof.
  split; [apply Permutation_rev|]. split; [exact sample_entry_keys|].
  apply (compute_hash_key_order 1 3 "2025-01-01 12:00:01.000013" (hash sample_genesis)
                                EmptyString EmptyString
                                (sample_entry 0) (rev (sample_entry 0)));
    [apply Permutation_rev | exact sample_entry_keys].
Defined.
